(** * Yin-Yang Foods search handler: a shallow embedding of [src/index.mjs]

    The development follows the source file top to bottom:

    - [JSString]: the string primitives the handler calls ([trim],
      [toLowerCase], [includes], [indexOf], [lastIndexOf], [substring]);
    - [json]: the values [JSON.parse] produces, objects as finite maps;
    - [Ajv]: the JSON-schema keywords the two schemas use, with the
      two schemas written out as in the source;
    - [normalizeName], [isConsumableIngredient], the cache;
    - [handler]: the request handler, as a state-and-exception computation
      over the in-memory cache and a log of the calls it makes.

    Then come the facts: about the string primitives, the schemas, the
    classifier and the cache; the response table the handler computes; and
    the properties of the specification.

    Modelling choices.  Strings are sequences of 8-bit code units
    ([Stdlib]'s [string]), read as the code points U+0000..U+00FF; the
    JavaScript primitives are modelled on that range.  What the runtime and
    the libraries compute ([createHash], [JSON.parse], [JSON.stringify],
    the format table of ajv-formats) is a parameter; what the outside world
    answers during a request (the clock, the store, the generator,
    [randomUUID]) is an [Env].  The records the store returns are JSON
    values, as the records the handler writes are.  [console] output is
    left out. *)

From Stdlib Require Import QArith ZArith Ascii String List Bool Lia.
From Stdlib Require Import Sorted.
From stdpp Require Import gmap strings list fin_maps option.

Set Warnings "-register-all".
Local Open Scope string_scope.
Local Open Scope Z_scope.

(* ===================================================================== *)
(** ** JavaScript string primitives *)
(* ===================================================================== *)

Module JSString.

Definition units (s : string) : list ascii := list_ascii_of_string s.
Definition of_units (l : list ascii) : string := string_of_list_ascii l.

(** ECMAScript WhiteSpace and LineTerminator code points below U+0100:
    TAB, LF, VT, FF, CR, SP and NBSP. *)
Definition isWhiteSpace (c : ascii) : bool :=
  let n := N_of_ascii c in
  ((n =? 9) || (n =? 10) || (n =? 11) || (n =? 12) || (n =? 13)
   || (n =? 32) || (n =? 160))%N.

(** Lower-case mapping of one code unit: A-Z, and the Latin-1 capitals
    U+00C0..U+00DE except the multiplication sign U+00D7. *)
Definition toLowerUnit (c : ascii) : ascii :=
  let n := N_of_ascii c in
  if (((65 <=? n) && (n <=? 90))
      || ((192 <=? n) && (n <=? 222) && negb (n =? 215)))%N
  then ascii_of_N (n + 32) else c.

Fixpoint dropWhile (p : ascii -> bool) (l : list ascii) : list ascii :=
  match l with
  | [] => []
  | c :: l' => if p c then dropWhile p l' else l
  end.

Definition trimStart_units (l : list ascii) : list ascii :=
  dropWhile isWhiteSpace l.
Definition trimEnd_units (l : list ascii) : list ascii :=
  rev (dropWhile isWhiteSpace (rev l)).
Definition trim_units (l : list ascii) : list ascii :=
  trimEnd_units (trimStart_units l).

Fixpoint startsWith_units (m s : list ascii) : bool :=
  match m, s with
  | [], _ => true
  | _ :: _, [] => false
  | a :: m', b :: s' => bool_decide (a = b) && startsWith_units m' s'
  end.

Fixpoint includes_units (s m : list ascii) : bool :=
  startsWith_units m s
  || match s with
     | [] => false
     | _ :: s' => includes_units s' m
     end.

(** [indexOf_from s m i]: position of the first occurrence of [m] in [s],
    counted from [i]; [-1] when there is none. *)
Fixpoint indexOf_from (s m : list ascii) (i : Z) : Z :=
  if startsWith_units m s then i
  else match s with
       | [] => -1
       | _ :: s' => indexOf_from s' m (i + 1)
       end.

(** [lastIndexOf_from s m i]: position of the last occurrence. *)
Fixpoint lastIndexOf_from (s m : list ascii) (i : Z) : Z :=
  match s with
  | [] => if startsWith_units m [] then i else -1
  | _ :: s' =>
      let later := lastIndexOf_from s' m (i + 1) in
      if later =? -1
      then (if startsWith_units m s then i else -1)
      else later
  end.

(** [String.prototype.substring]: both indices are clamped to
    [0 .. length] and swapped when out of order. *)
Definition substring_units (l : list ascii) (from to : Z) : list ascii :=
  let len := Z.of_nat (length l) in
  let clamp x := Z.max 0 (Z.min x len) in
  let a := Z.min (clamp from) (clamp to) in
  let b := Z.max (clamp from) (clamp to) in
  take (Z.to_nat (b - a)) (drop (Z.to_nat a) l).

Definition trim (s : string) : string := of_units (trim_units (units s)).
Definition toLowerCase (s : string) : string :=
  of_units (map toLowerUnit (units s)).
Definition includes (s m : string) : bool :=
  includes_units (units s) (units m).
Definition indexOf (s m : string) : Z := indexOf_from (units s) (units m) 0.
Definition lastIndexOf (s m : string) : Z :=
  lastIndexOf_from (units s) (units m) 0.
Definition substring (s : string) (from to : Z) : string :=
  of_units (substring_units (units s) from to).

End JSString.

Example trim_example : JSString.trim "  Ginger Root 	" = "Ginger Root".
Proof. reflexivity. Qed.
Example toLowerCase_example : JSString.toLowerCase "Yin (Cold)" = "yin (cold)".
Proof. reflexivity. Qed.
Example includes_example :
  JSString.includes "industrial chemical compound" "chemical" = true
  /\ JSString.includes "root vegetable" "metal" = false.
Proof. split; reflexivity. Qed.
Example indexOf_example :
  JSString.indexOf "a{b{c" "{" = 1 /\ JSString.indexOf "abc" "{" = -1.
Proof. split; reflexivity. Qed.
Example lastIndexOf_example :
  JSString.lastIndexOf "a}b}c" "}" = 3 /\ JSString.lastIndexOf "abc" "}" = -1.
Proof. split; reflexivity. Qed.
Example substring_example :
  JSString.substring "hello" 1 3 = "el"
  /\ JSString.substring "hello" 3 1 = "el"
  /\ JSString.substring "hello" (-2) 100 = "hello".
Proof. repeat split; reflexivity. Qed.

(* ===================================================================== *)
(** ** JSON values *)
(* ===================================================================== *)

(** The values [JSON.parse] returns.  An object is a finite map from its own
    property names to values.  Numbers are carried as rationals: no check of
    the program reads a number except for truthiness. *)
Inductive json : Type :=
  | JNull
  | JBool (b : bool)
  | JNum (q : Q)
  | JStr (s : string)
  | JArr (l : list json)
  | JObj (m : gmap string json).

(** JavaScript [ToBoolean]. *)
Definition truthy (v : json) : bool :=
  match v with
  | JNull => false
  | JBool b => b
  | JNum q => negb (Qnum q =? 0)
  | JStr s => negb (bool_decide (s = ""))
  | JArr _ | JObj _ => true
  end.

(** [v.k] for a parsed value: own properties of objects only. *)
Definition prop (v : json) (k : string) : option json :=
  match v with
  | JObj m => m !! k
  | _ => None
  end.

(** [obj.k = x]. *)
Definition assign (k : string) (x : json) (m : gmap string json)
  : gmap string json := <[k := x]> m.

(* ===================================================================== *)
(** ** Ajv: the schema keywords of [inputSchema] and [storageSchema] *)
(* ===================================================================== *)

Module Ajv.

Inductive jtype := TString | TObject | TArray.

(** A schema object; an absent keyword is [None].  Every [enum] of the
    source lists strings. *)
Inductive schema : Type := Schema {
  kw_type : option jtype;
  kw_enum : option (list string);
  kw_oneOf : option (list schema);
  kw_properties : option (list (string * schema));
  kw_required : option (list string);
  kw_additionalProperties : option bool;
  kw_items : option schema;
  kw_format : option string
}.

Definition check_type (t : option jtype) (v : json) : bool :=
  match t, v with
  | None, _ => true
  | Some TString, JStr _ => true
  | Some TObject, JObj _ => true
  | Some TArray, JArr _ => true
  | Some _, _ => false
  end.

Definition check_enum (e : option (list string)) (v : json) : bool :=
  match e with
  | None => true
  | Some allowed =>
      match v with
      | JStr s => bool_decide (s ∈ allowed)
      | _ => false
      end
  end.

Definition check_required (r : option (list string)) (v : json) : bool :=
  match r, v with
  | Some names, JObj m => forallb (fun k => bool_decide (is_Some (m !! k))) names
  | _, _ => true
  end.

(** [additionalProperties: false]: every key of the data is one of the
    declared [properties]. *)
Definition check_additional (a : option bool)
    (declared : list string) (v : json) : bool :=
  match a, v with
  | Some false, JObj m =>
      bool_decide (map_Forall (fun k _ => k ∈ declared) m)
  | _, _ => true
  end.

Section Validate.

(** The format table ([ajv-formats]): format name, then the string. *)
Variable formats : string -> string -> bool.

Definition check_format (f : option string) (v : json) : bool :=
  match f, v with
  | Some name, JStr s => formats name s
  | _, _ => true
  end.

(** Validation with [allErrors]: every keyword is evaluated; the result
    is their conjunction. *)
Fixpoint validate (s : schema) (v : json) {struct s} : bool :=
  match s with
  | Schema ty en one props req addl items fmt =>
      check_type ty v
      && check_enum en v
      && match one with
         | None => true
         | Some alts =>
             (length (List.filter (fun a => validate a v) alts) =? 1)%nat
         end
      && match props, v with
         | Some ps, JObj m =>
             forallb (fun p : string * schema =>
                        match m !! p.1 with
                        | Some x => validate p.2 x
                        | None => true
                        end) ps
         | _, _ => true
         end
      && check_required req v
      && check_additional addl
           (match props with Some ps => ps.*1 | None => [] end) v
      && match items, v with
         | Some sub, JArr l => forallb (validate sub) l
         | _, _ => true
         end
      && check_format fmt v
  end.

End Validate.

(** *** Schema literals *)

Definition string_ : schema :=
  Schema (Some TString) None None None None None None None.
Definition string_enum (allowed : list string) : schema :=
  Schema (Some TString) (Some allowed) None None None None None None.
Definition string_format (name : string) : schema :=
  Schema (Some TString) None None None None None None (Some name).
Definition array_of (items : schema) : schema :=
  Schema (Some TArray) None None None None None (Some items) None.
Definition oneOf (alts : list schema) : schema :=
  Schema None None (Some alts) None None None None None.
Definition object_ (props : list (string * schema)) (required : list string)
    (additional : bool) : schema :=
  Schema (Some TObject) None None (Some props) (Some required)
         (Some additional) None None.
(** [{ type: "object", additionalProperties: true }] *)
Definition open_object : schema :=
  Schema (Some TObject) None None None None (Some true) None None.

End Ajv.
Import Ajv.

Definition multilingual : schema :=
  object_ [("English", string_); ("Chinese", string_); ("Spanish", string_)]
          ["English"] false.

Definition inputSchema_properties : list (string * schema) :=
  [ ("ItemType", string_enum ["ingredient"; "nutrient"]);
    ("Name", oneOf [string_; multilingual]);
    ("AlternateNames", array_of string_);
    ("Description", oneOf [string_; multilingual]);
    ("YinYangClassification",
       string_enum ["Yin (Cold)"; "Yin (Cool)"; "Neutral";
                    "Yang (Warm)"; "Yang (Hot)"]);
    ("FiveElements", string_);
    ("Category", string_);
    ("FlavorProfile", array_of string_);
    ("MedicinalProperties", array_of string_);
    ("CommonCulinaryUses", array_of string_);
    ("OriginRegion", string_);
    ("SeasonalAvailability", string_);
    ("NutritionalInformation", open_object);
    ("AllergenInformation", string_);
    ("PreparationTips", array_of string_);
    ("DietaryRestrictions", array_of string_);
    ("SubstituteIngredients", array_of string_);
    ("StorageMethods", open_object);
    ("CulinaryTechniques", array_of string_);
    ("CulturalSignificance", open_object);
    ("HistoricalUsage", open_object);
    ("EnvironmentalImpact", open_object);
    ("TCMInformation",
       object_ [("Functions", array_of string_);
                ("HerbalFormulations", array_of string_);
                ("Meridians", array_of string_)]
               ["Functions"] false);
    ("Type", string_enum ["vitamin"; "mineral"; "other"]);
    ("Functions", array_of string_);
    ("Sources", array_of string_);
    ("RecommendedDailyIntake", string_);
    ("DeficiencySymptoms", array_of string_);
    ("ExcessSymptoms", array_of string_);
    ("TopFoodSources", array_of string_) ].

Definition inputSchema : schema :=
  object_ inputSchema_properties ["ItemType"; "Name"] false.

Definition storageSchema : schema :=
  object_ (inputSchema_properties ++
           [ ("ItemID", string_);
             ("DateAdded", string_format "date-time");
             ("NameLowercase", string_) ])
          ["ItemType"; "Name"; "ItemID"; "DateAdded"; "NameLowercase"] false.

(* ===================================================================== *)
(** ** Helper functions of the handler *)
(* ===================================================================== *)

Definition normalizeName (name : string) : string :=
  JSString.toLowerCase (JSString.trim name).

Definition nonConsumableCategories : list string :=
  [ "poison"; "chemical"; "non-food"; "cleaning agent"; "toxic substance";
    "metal"; "plastic"; "drug"; "medicine"; "insecticide"; "herbicide";
    "fungicide"; "fertilizer"; "petroleum"; "non-edible"; "radioactive";
    "synthetic compound"; "material"; "alloy"; "paint"; "solvent";
    "detergent"; "adhesive"; "lubricant"; "pesticide"; "disinfectant";
    "explosive"; "gas"; "element"; "rock"; "gemstone"; "crystal" ].

(** [v === s] for a property read [v] (absent is [undefined]). *)
Definition strict_eq_string (v : option json) (s : string) : bool :=
  match v with
  | Some (JStr t) => bool_decide (t = s)
  | _ => false
  end.

(** [a || b] on a property read. *)
Definition or_else (a : option json) (b : json) : json :=
  match a with
  | Some v => if truthy v then v else b
  | None => b
  end.

(** [isConsumableIngredient]; [None] is a thrown [TypeError]: reading a
    property of [null], or calling [toLowerCase] on a truthy category that
    is not a string. *)
Definition isConsumableIngredient (itemData : json) : option bool :=
  match itemData with
  | JNull => None
  | _ =>
      if negb (strict_eq_string (prop itemData "ItemType") "ingredient")
      then Some true
      else
        match or_else (prop itemData "Category") (JStr "") with
        | JStr category =>
            Some (negb (existsb
                          (fun cat =>
                             JSString.includes (JSString.toLowerCase category) cat)
                          nonConsumableCategories))
        | _ => None
        end
  end.

(* ===================================================================== *)
(** ** Completions, the world, and the calls of one request *)
(* ===================================================================== *)

Record CacheEntry := { data : json; timestamp : Z }.

(** Calls the handler makes, in the order it makes them. *)
Inductive Call :=
  | CacheGet (key : string)
  | StoreQuery (nameLowercase : string)
  | Generate (searchName : string)
  | JsonParse (text : string)
  | ValidateInput (item : json)
  | CheckConsumable (item : json)
  | ValidateStorage (item : json)
  | StorePut (item : json)
  | CacheSet (key : string) (item : json).

(** The module-level [cache] object, and the calls made so far. *)
Record World := { cache : gmap string CacheEntry; calls : list Call }.

Record Response := {
  statusCode : Z;
  headers : list (string * json);
  body : string
}.

(** How a block of statements ends: it falls through with a value, executes
    [return], or throws. *)
Inductive Completion (A : Type) :=
  | Normal (a : A)
  | Return (r : Response)
  | Throw.
Arguments Normal {A} a.
Arguments Return {A} r.
Arguments Throw {A}.

Definition Js (A : Type) : Type := World -> Completion A * World.

Definition ret {A} (a : A) : Js A := fun w => (Normal a, w).
Definition bind {A B} (m : Js A) (k : A -> Js B) : Js B :=
  fun w =>
    match m w with
    | (Normal a, w') => k a w'
    | (Return r, w') => (Return r, w')
    | (Throw, w') => (Throw, w')
    end.
Definition return_ {A} (r : Response) : Js A := fun w => (Return r, w).
Definition throw {A} : Js A := fun w => (Throw, w).
(** [try { body } catch { handle }] *)
Definition try_catch {A} (body handle : Js A) : Js A :=
  fun w =>
    match body w with
    | (Throw, w') => handle w'
    | done => done
    end.
Definition record (c : Call) : Js unit :=
  fun w => (Normal tt, {| cache := cache w; calls := calls w ++ [c] |}).
Definition read_cache : Js (gmap string CacheEntry) :=
  fun w => (Normal (cache w), w).
Definition write_cache (c : gmap string CacheEntry) : Js unit :=
  fun w => (Normal tt, {| cache := c; calls := calls w |}).
(** A call that throws when it has no result. *)
Definition or_throw {A} (o : option A) : Js A :=
  match o with
  | Some a => ret a
  | None => throw
  end.

Declare Scope js_scope.
Delimit Scope js_scope with js.
Notation "x <- m ;; k" := (bind m (fun x => k))
  (at level 100, m at next level, right associativity) : js_scope.
Notation "m ;;; k" := (bind m (fun _ => k))
  (at level 100, right associativity) : js_scope.

(* ===================================================================== *)
(** ** Cache *)
(* ===================================================================== *)

(** The [cache] object is used as a map from fingerprints (hexadecimal
    digests) to entries. *)
Definition CACHE_TTL : Z := 60 * 60 * 1000.

(** [now] is the value [Date.now()] has inside the function; [JNull] is the
    [null] result. *)
Definition getCachedResponse (now : Z) (key : string) : Js json :=
  (cache <- read_cache ;;
   ret match cache !! key with
       | Some cached =>
           if now - timestamp cached <? CACHE_TTL then data cached else JNull
       | None => JNull
       end)%js.

Definition setCachedResponse (now : Z) (key : string) (item : json) : Js unit :=
  (cache <- read_cache ;;
   write_cache (<[key := {| data := item; timestamp := now |}]> cache))%js.

(* ===================================================================== *)
(** ** The handler *)
(* ===================================================================== *)

(** The query-string part of the API Gateway event. *)
Record APIEvent := { queryStringParameters : option (gmap string string) }.

(** What the outside world answers during one request. *)
Record Env := {
  (** [Date.now()] inside [getCachedResponse] and inside [setCachedResponse] *)
  now_at_get : Z;
  now_at_set : Z;
  (** [dynamoDBClient.send(queryCommand)], by the queried name: [None] when
      the call rejects, else the [Items] of the output, unmarshalled *)
  dynamo_query : string -> option (option (list json));
  (** the chat completion's [choices[0].message.content], by the search name
      the prompt is built from; [None] when the call or the read throws *)
  openai_content : string -> option string;
  randomUUID : string;
  toISOString_now : string;
  (** whether [marshall(itemData)] returns *)
  marshall_ok : json -> bool;
  (** whether [dynamoDBClient.send(putItemCommand)] resolves *)
  dynamo_put_ok : json -> bool
}.

Definition cors_headers : list (string * json) :=
  [ ("Access-Control-Allow-Origin", JStr "*");
    ("Access-Control-Allow-Credentials", JBool true) ].

Definition error_body (message : string) : json :=
  JObj {[ "error" := JStr message ]}.
Definition item_body (found : bool) (item : json) : json :=
  JObj (<["found" := JBool found]> {[ "item" := item ]}).

Definition not_valid_message (searchName : string) : string :=
  searchName ++ " is not a valid consumable food item or nutrient.".

(** The text the reply is searched for: ["error":] with its quotes. *)
Definition error_marker : string :=
  String "034" ("error" ++ String "034" ":").

(** [queryParams && queryParams.name] *)
Definition search_name (event : APIEvent) : option string :=
  match queryStringParameters event with
  | Some queryParams => queryParams !! "name"
  | None => None
  end.

(** [jsonStart], [jsonEnd] and the [substring] between them; [None] when
    the block throws for want of a brace. *)
Definition json_span (content : string) : option string :=
  let jsonStart := JSString.indexOf content "{" in
  let jsonEnd := JSString.lastIndexOf content "}" in
  if (jsonStart =? -1) || (jsonEnd =? -1) then None
  else Some (JSString.substring content jsonStart (jsonEnd + 1)).

(** The three assignments to [itemData]. *)
Definition with_system_fields (itemID dateAdded nameLowercase : string)
    (fields : gmap string json) : json :=
  JObj (assign "NameLowercase" (JStr nameLowercase)
       (assign "DateAdded" (JStr dateAdded)
       (assign "ItemID" (JStr itemID) fields))).

Section Handler.

(** The runtime and the libraries. *)
Variable sha256_hex : string -> string.
Variable JSON_parse : string -> option json.
Variable JSON_stringify : json -> string.
Variable formats : string -> string -> bool.

Definition validateInput : json -> bool := validate formats inputSchema.
Definition validateStorage : json -> bool := validate formats storageSchema.

Definition response (status : Z) (payload : json) : Response :=
  {| statusCode := status;
     headers := cors_headers;
     body := JSON_stringify payload |}.

Variable env : Env.

(** The [else] branch of the store lookup: ask the generator, look for the
    error marker, parse, validate, classify, assign the system fields,
    validate again, put, cache, respond.  The assignments are reached by
    objects only ([validateInput] has accepted [itemData]); on anything
    else the model throws. *)
Definition generate_and_store
    (searchName normalizedSearchName cacheKey : string) : Js Empty_set :=
  (openAIResponseContent <-
     try_catch
       (record (Generate searchName) ;;;
        content <- or_throw (openai_content env searchName) ;;
        ret (JSString.trim content))
       (return_ (response 502
          (error_body "Failed to retrieve data from external service."))) ;;
   (if JSString.includes (JSString.toLowerCase openAIResponseContent)
                         error_marker
    then return_ (response 404 (error_body (not_valid_message searchName)))
    else ret tt) ;;;
   itemData <-
     try_catch
       (jsonString <- or_throw (json_span openAIResponseContent) ;;
        record (JsonParse jsonString) ;;;
        or_throw (JSON_parse jsonString))
       (return_ (response 500
          (error_body "Failed to parse data from external service."))) ;;
   record (ValidateInput itemData) ;;;
   (if negb (validateInput itemData)
    then return_ (response 500
           (error_body "Invalid data format received from external service."))
    else ret tt) ;;;
   record (CheckConsumable itemData) ;;;
   consumable <- or_throw (isConsumableIngredient itemData) ;;
   (if negb consumable
    then return_ (response 404 (error_body (not_valid_message searchName)))
    else ret tt) ;;;
   fields <- or_throw (match itemData with JObj m => Some m | _ => None end) ;;
   let itemData :=
     with_system_fields (randomUUID env) (toISOString_now env)
                        normalizedSearchName fields in
   record (ValidateStorage itemData) ;;;
   (if negb (validateStorage itemData)
    then return_ (response 500
           (error_body "Invalid data format after adding system fields."))
    else ret tt) ;;;
   (if marshall_ok env itemData then ret tt else throw) ;;;
   try_catch
     (record (StorePut itemData) ;;;
      if dynamo_put_ok env itemData then ret tt else throw)
     (return_ (response 500 (error_body "Failed to save item data."))) ;;;
   record (CacheSet cacheKey itemData) ;;;
   setCachedResponse (now_at_set env) cacheKey itemData ;;;
   return_ (response 200 (item_body false itemData)))%js.

(** From [normalizeName(searchName)] on: cache, store, generator. *)
Definition lookup_or_generate (searchName : string) : Js Empty_set :=
  let normalizedSearchName := normalizeName searchName in
  let cacheKey := sha256_hex normalizedSearchName in
  (record (CacheGet cacheKey) ;;;
   cachedData <- getCachedResponse (now_at_get env) cacheKey ;;
   if truthy cachedData
   then return_ (response 200 (item_body true cachedData))
   else
     record (StoreQuery normalizedSearchName) ;;;
     data <- or_throw (dynamo_query env normalizedSearchName) ;;
     match data with
     | Some (itemData :: _) =>
         record (CacheSet cacheKey itemData) ;;;
         setCachedResponse (now_at_set env) cacheKey itemData ;;;
         return_ (response 200 (item_body true itemData))
     | _ => generate_and_store searchName normalizedSearchName cacheKey
     end)%js.

(** The body of the outer [try]. *)
Definition handler_body (event : APIEvent) : Js Empty_set :=
  match search_name event with
  | None | Some "" =>
      return_ (response 400 (error_body "Search name is required."))
  | Some searchName => lookup_or_generate searchName
  end.

(** The whole function: the outermost [try]/[catch] around the body. *)
Definition handler (event : APIEvent) (w : World) : Response * World :=
  match try_catch (handler_body event)
                  (return_ (response 500 (error_body "Internal server error.")))
                  w with
  | (Return r, w') => (r, w')
  | (Throw, w') => (response 500 (error_body "Internal server error."), w')
  | (Normal impossible, _) => match impossible with end
  end.

End Handler.

(* ===================================================================== *)
(** ** Concrete requests used in the examples *)
(* ===================================================================== *)

Module Fixture.

(** Stand-ins for the runtime: any injective fingerprint, a parser that
    knows the replies below, a printer that tells the body shapes apart,
    and a date-time format that accepts the one timestamp used. *)
Definition sha256_hex (s : string) : string := "sha256:" ++ s.
Definition date : string := "2024-05-01T12:00:00.000Z".
Definition formats (name s : string) : bool :=
  bool_decide (name = "date-time") && bool_decide (s = date).

Definition ginger_fields : gmap string json :=
  list_to_map
    [ ("ItemType", JStr "ingredient");
      ("Name", JObj (list_to_map [("English", JStr "Ginger")]));
      ("Category", JStr "root vegetable");
      ("YinYangClassification", JStr "Yang (Warm)") ].
Definition ginger : json := JObj ginger_fields.
Definition zinc : json :=
  JObj (list_to_map
    [ ("ItemType", JStr "nutrient"); ("Name", JStr "Zinc");
      ("Type", JStr "mineral") ]).
Definition bottle : json :=
  JObj (list_to_map
    [ ("ItemType", JStr "ingredient");
      ("Name", JObj (list_to_map [("English", JStr "Bottle")]));
      ("Category", JStr "Plastic container") ]).
(** A nutrient whose name has the multilingual shape. *)
Definition nutrient_named_as_ingredient : json :=
  JObj (list_to_map
    [ ("ItemType", JStr "nutrient");
      ("Name", JObj (list_to_map [("English", JStr "Zinc")])) ]).
(** An ingredient whose name is a plain string. *)
Definition ingredient_named_as_nutrient : json :=
  JObj (list_to_map
    [ ("ItemType", JStr "ingredient"); ("Name", JStr "Ginger") ]).

Definition JSON_parse (text : string) : option json :=
  if bool_decide (text = "{ginger}") then Some ginger
  else if bool_decide (text = "{zinc}") then Some zinc
  else if bool_decide (text = "{bottle}") then Some bottle
  else None.
Definition JSON_stringify (v : json) : string :=
  match v with
  | JObj m =>
      match m !! "error", m !! "found" with
      | Some (JStr msg), _ => "error: " ++ msg
      | _, Some (JBool true) => "found"
      | _, Some (JBool false) => "new"
      | _, _ => "?"
      end
  | _ => "?"
  end.

(** A store that holds [records] under the name "ginger", and a generator
    that answers [reply] ([None]: the call fails). *)
Definition env_with (records : list json) (reply : option string) : Env :=
  {| now_at_get := 1000;
     now_at_set := 2000;
     dynamo_query := fun name =>
       Some (Some (if bool_decide (name = "ginger") then records else []));
     openai_content := fun _ => reply;
     randomUUID := "id-1";
     toISOString_now := date;
     marshall_ok := fun _ => true;
     dynamo_put_ok := fun _ => true |}.
Definition env (reply : option string) : Env := env_with [] reply.

Definition request (name : string) : APIEvent :=
  {| queryStringParameters := Some {[ "name" := name ]} |}.
Definition cold : World := {| cache := ∅; calls := [] |}.

Definition run (reply : option string) (name : string) : Response * World :=
  handler sha256_hex JSON_parse JSON_stringify formats (env reply)
          (request name) cold.

End Fixture.

(** The end-to-end scenarios of the specification. *)

Example scenario_new_item :
  let run := Fixture.run (Some "Here: {ginger} ok") "ginger" in
  statusCode run.1 = 200 /\ body run.1 = "new"
  /\ (data <$> cache run.2 !! "sha256:ginger")
     = Some (with_system_fields "id-1" Fixture.date "ginger"
                                Fixture.ginger_fields).
Proof. vm_compute. repeat split; reflexivity. Qed.

Example scenario_store_hit :
  let stored_ginger :=
    with_system_fields "id-0" Fixture.date "ginger" Fixture.ginger_fields in
  let run :=
    handler Fixture.sha256_hex Fixture.JSON_parse Fixture.JSON_stringify
            Fixture.formats (Fixture.env_with [stored_ginger] None)
            (Fixture.request "Ginger ") Fixture.cold in
  statusCode run.1 = 200 /\ body run.1 = "found"
  /\ (data <$> cache run.2 !! "sha256:ginger") = Some stored_ginger.
Proof. vm_compute. repeat split; reflexivity. Qed.

Example scenario_invalid_item :
  let reply := "{" ++ error_marker ++ " " ++ String "034" "Invalid item}" in
  statusCode (Fixture.run (Some reply) "arsenic").1 = 404.
Proof. vm_compute. reflexivity. Qed.

Example scenario_no_braces :
  let run := Fixture.run (Some "I cannot help with that.") "ginger" in
  statusCode run.1 = 500
  /\ body run.1 = "error: Failed to parse data from external service.".
Proof. vm_compute. split; reflexivity. Qed.

Example scenario_missing_name :
  statusCode
    (handler Fixture.sha256_hex Fixture.JSON_parse Fixture.JSON_stringify
             Fixture.formats (Fixture.env None)
             {| queryStringParameters := None |} Fixture.cold).1 = 400.
Proof. vm_compute. reflexivity. Qed.


(* ===================================================================== *)
(** ** Facts about the string primitives *)
(* ===================================================================== *)

Module JSStringFacts.
Import JSString.
Local Open Scope list_scope.

Ltac each_unit c := destruct c as [[] [] [] [] [] [] [] []]; reflexivity.

Lemma isWhiteSpace_toLowerUnit c : isWhiteSpace (toLowerUnit c) = isWhiteSpace c.
Proof. each_unit c. Qed.

Lemma toLowerUnit_idem c : toLowerUnit (toLowerUnit c) = toLowerUnit c.
Proof. each_unit c. Qed.

Lemma units_of_units l : units (of_units l) = l.
Proof. apply list_ascii_of_string_of_list_ascii. Qed.

Lemma of_units_units s : of_units (units s) = s.
Proof. apply string_of_list_ascii_of_string. Qed.

Lemma units_nil_inv s : units s = [] -> s = "".
Proof. destruct s; [reflexivity | discriminate]. Qed.

(** A run of white space, and a sequence that does not start with one. *)
Definition blank (l : list ascii) : Prop :=
  Forall (fun c => isWhiteSpace c = true) l.
Definition starts_solid (l : list ascii) : Prop :=
  match l with
  | [] => True
  | c :: _ => isWhiteSpace c = false
  end.

Lemma blank_app a b : blank a -> blank b -> blank (a ++ b).
Proof. intros Ha Hb. apply Forall_app; split; assumption. Qed.



Lemma dropWhile_blank w l :
  blank w -> dropWhile isWhiteSpace (w ++ l) = dropWhile isWhiteSpace l.
Proof.
  induction 1 as [|c w Hc _ IH]; simpl; [reflexivity|].
  rewrite Hc. exact IH.
Qed.

Lemma dropWhile_solid l : starts_solid l -> dropWhile isWhiteSpace l = l.
Proof. destruct l as [|c l]; simpl; [reflexivity|]. intros ->. reflexivity. Qed.

Lemma dropWhile_starts_solid l : starts_solid (dropWhile isWhiteSpace l).
Proof.
  induction l as [|c l IH]; simpl; [exact I|].
  destruct (isWhiteSpace c) eqn:Hc; [exact IH | exact Hc].
Qed.

Lemma dropWhile_split l :
  exists w, blank w /\ l = w ++ dropWhile isWhiteSpace l.
Proof.
  induction l as [|c l (w & Hw & IH)]; simpl.
  - exists []. split; [constructor | reflexivity].
  - destruct (isWhiteSpace c) eqn:Hc.
    + exists (c :: w). split; [constructor; assumption|].
      simpl. f_equal. exact IH.
    + exists []. split; [constructor | reflexivity].
Qed.

Lemma dropWhile_keeps_last y c :
  isWhiteSpace c = false ->
  exists x, dropWhile isWhiteSpace (y ++ [c]) = x ++ [c].
Proof.
  intros Hc. induction y as [|d y (x & IH)]; simpl.
  - rewrite Hc. exists []. reflexivity.
  - destruct (isWhiteSpace d).
    + exists x. exact IH.
    + exists (d :: y). reflexivity.
Qed.

Lemma dropWhile_map_lower l :
  dropWhile isWhiteSpace (map toLowerUnit l)
  = map toLowerUnit (dropWhile isWhiteSpace l).
Proof.
  induction l as [|c l IH]; simpl; [reflexivity|].
  rewrite isWhiteSpace_toLowerUnit.
  destruct (isWhiteSpace c); [exact IH | reflexivity].
Qed.

(** [trim] returns the core of any padding of a core. *)
Lemma trim_units_core a core b :
  blank a -> blank b -> starts_solid core -> starts_solid (rev core) ->
  trim_units (a ++ core ++ b) = core.
Proof.
  intros Ha Hb Hc Hr. unfold trim_units, trimStart_units, trimEnd_units.
  rewrite dropWhile_blank by assumption.
  destruct core as [|c core].
  - simpl. rewrite <- (app_nil_r b), dropWhile_blank by assumption.
    reflexivity.
  - rewrite (dropWhile_solid ((c :: core) ++ b)) by exact Hc.
    rewrite rev_app_distr, dropWhile_blank by (apply Forall_rev; assumption).
    rewrite (dropWhile_solid (rev (c :: core))) by exact Hr.
    apply rev_involutive.
Qed.

Lemma trim_units_split l :
  exists a b, blank a /\ blank b /\ l = a ++ trim_units l ++ b
              /\ starts_solid (trim_units l)
              /\ starts_solid (rev (trim_units l)).
Proof.
  unfold trim_units, trimStart_units, trimEnd_units.
  destruct (dropWhile_split l) as (a & Ha & Hl).
  pose proof (dropWhile_starts_solid l) as Hm.
  set (m := dropWhile isWhiteSpace l) in *.
  destruct (dropWhile_split (rev m)) as (b & Hb & Hrev).
  exists a, (rev b). repeat split.
  - exact Ha.
  - apply Forall_rev. exact Hb.
  - rewrite <- rev_app_distr, <- Hrev, rev_involutive. exact Hl.
  - destruct m as [|c m']; [exact I|].
    simpl in Hm. simpl rev.
    destruct (dropWhile_keeps_last (rev m') c Hm) as (x & ->).
    rewrite rev_app_distr. exact Hm.
  - rewrite rev_involutive. apply dropWhile_starts_solid.
Qed.

Lemma trim_units_pad a l b :
  blank a -> blank b -> trim_units (a ++ l ++ b) = trim_units l.
Proof.
  intros Ha Hb.
  destruct (trim_units_split l) as (a' & b' & Ha' & Hb' & Hl & Hs & Hr).
  rewrite Hl at 1.
  replace (a ++ (a' ++ trim_units l ++ b') ++ b)
    with ((a ++ a') ++ trim_units l ++ (b' ++ b))
    by (rewrite <- !app_assoc; reflexivity).
  apply trim_units_core; auto using blank_app.
Qed.

Lemma trim_units_blank l : blank l -> trim_units l = [].
Proof.
  intros Hl. rewrite <- (app_nil_r l).
  change (l ++ []) with (l ++ [] ++ []).
  apply trim_units_core; try constructor; assumption.
Qed.

Lemma trim_units_map_lower l :
  trim_units (map toLowerUnit l) = map toLowerUnit (trim_units l).
Proof.
  unfold trim_units, trimStart_units, trimEnd_units.
  rewrite dropWhile_map_lower, <- map_rev, dropWhile_map_lower, map_rev.
  reflexivity.
Qed.

(** *** Occurrences survive trimming *)








(** *** Normalisation forgets case and surrounding white space *)

(** Two code units that are equal or the two cases of one letter. *)
Definition same_letter (a b : ascii) : Prop :=
  a = b \/ b = toLowerUnit a \/ a = toLowerUnit b.

Lemma same_letter_lower a b : same_letter a b -> toLowerUnit a = toLowerUnit b.
Proof.
  intros [-> | [-> | ->]]; rewrite ?toLowerUnit_idem; reflexivity.
Qed.

Lemma same_letters_lower t1 t2 :
  Forall2 same_letter t1 t2 -> map toLowerUnit t1 = map toLowerUnit t2.
Proof.
  induction 1 as [|a b t1 t2 Hab _ IH]; simpl; [reflexivity|].
  rewrite (same_letter_lower a b Hab), IH. reflexivity.
Qed.

End JSStringFacts.

(* ===================================================================== *)
(** ** Facts about the two schemas *)
(* ===================================================================== *)

Definition system_fields : list string := ["ItemID"; "DateAdded"; "NameLowercase"].

(** The property names [inputSchema] declares. *)
Definition known_properties : list string := inputSchema_properties.*1.

(** The shape the [Name] alternatives describe: a string, or an object with
    a string [English] whose other keys, if any, are [Chinese] and
    [Spanish], holding strings. *)
Definition multilingual_shape (n : gmap string json) : Prop :=
  (exists e, n !! "English" = Some (JStr e))
  /\ forall k x, n !! k = Some x ->
       k ∈ ["English"; "Chinese"; "Spanish"] /\ exists s, x = JStr s.
Definition name_shape (name : json) : Prop :=
  (exists s, name = JStr s)
  \/ (exists n, name = JObj n /\ multilingual_shape n).

(** A decidable closed proposition, settled by evaluating its decision. *)
Ltac by_evaluation := apply (bool_decide_unpack _); vm_compute; exact I.

(** Membership of a listed element. *)
Ltac in_list :=
  repeat (first [apply list_elem_of_here | apply list_elem_of_further]).

(** Reads of concrete fields after assignments to concrete fields. *)
Ltac field_lookups :=
  unfold assign; rewrite ?lookup_insert;
  repeat (case_decide; try discriminate; try congruence).

Section SchemaFacts.

Variable formats : string -> string -> bool.

Lemma validate_object props req addl m :
  validate formats (object_ props req addl) (JObj m)
  = forallb (fun p : string * schema =>
               match m !! p.1 with
               | Some x => validate formats p.2 x
               | None => true
               end) props
    && check_required (Some req) (JObj m)
    && check_additional (Some addl) props.*1 (JObj m).
Proof. cbn. rewrite !andb_true_r. reflexivity. Qed.

Lemma validate_object_inv props req addl v :
  validate formats (object_ props req addl) v = true ->
  exists m, v = JObj m.
Proof. destruct v; cbn; try discriminate. eauto. Qed.

Lemma validate_string_inv v :
  validate formats string_ v = true -> exists s, v = JStr s.
Proof. destruct v; cbn; try discriminate. eauto. Qed.

Lemma validate_property props req addl m k sub x :
  validate formats (object_ props req addl) (JObj m) = true ->
  (k, sub) ∈ props -> m !! k = Some x ->
  validate formats sub x = true.
Proof.
  rewrite validate_object. intros H Hin Hx.
  apply andb_prop in H as [H _]. apply andb_prop in H as [H _].
  rewrite forallb_forall in H.
  specialize (H (k, sub)). cbn in H. rewrite Hx in H.
  apply H. apply list_elem_of_In. exact Hin.
Qed.

Lemma validate_required props req addl m k :
  validate formats (object_ props req addl) (JObj m) = true ->
  k ∈ req -> is_Some (m !! k).
Proof.
  rewrite validate_object. intros H Hin.
  apply andb_prop in H as [H _]. apply andb_prop in H as [_ H].
  cbn in H. rewrite forallb_forall in H.
  apply list_elem_of_In, H in Hin.
  apply bool_decide_eq_true in Hin. exact Hin.
Qed.

Lemma validate_closed props req m k x :
  validate formats (object_ props req false) (JObj m) = true ->
  m !! k = Some x -> k ∈ props.*1.
Proof.
  rewrite validate_object. intros H Hk.
  apply andb_prop in H as [_ H]. cbn in H.
  apply bool_decide_eq_true in H. exact (H k x Hk).
Qed.

Lemma validate_multilingual n :
  validate formats multilingual (JObj n) = true <-> multilingual_shape n.
Proof.
  unfold multilingual. split.
  - intros H. split.
    + destruct (validate_required _ _ _ _ "English" H) as [x Hx];
        [by_evaluation|].
      destruct (validate_string_inv x) as [e ->]; [|eauto].
      eapply validate_property; [exact H| |exact Hx]. apply list_elem_of_here.
    + intros k x Hk.
      pose proof (validate_closed _ _ _ _ _ H Hk) as Hin. split; [exact Hin|].
      apply validate_string_inv.
      eapply validate_property; [exact H| |exact Hk].
      cbn in Hin.
      repeat (apply elem_of_cons in Hin as [-> | Hin]; [in_list|]).
      inversion Hin.
  - intros [[e He] Hall]. rewrite validate_object.
    apply andb_true_intro; split; [apply andb_true_intro; split|].
    + apply forallb_forall. intros [k sub] Hin. cbn [fst snd].
      destruct (n !! k) as [x|] eqn:Hk; [|reflexivity].
      destruct (Hall k x Hk) as [_ [s ->]].
      cbn in Hin. destruct Hin as [Hp | [Hp | [Hp | []]]];
        inversion Hp; reflexivity.
    + cbn. rewrite He. reflexivity.
    + cbn. apply bool_decide_eq_true. intros k x Hk.
      exact (proj1 (Hall k x Hk)).
Qed.

Lemma validate_oneOf alts v :
  validate formats (oneOf alts) v
  = (length (List.filter (fun a => validate formats a v) alts) =? 1)%nat.
Proof. destruct v; cbn; rewrite ?andb_true_r; reflexivity. Qed.

(** The [Name] property schema accepts exactly the two shapes. *)
Lemma validate_name name :
  validate formats (oneOf [string_; multilingual]) name = true
  <-> name_shape name.
Proof.
  unfold name_shape. rewrite validate_oneOf. split.
  - intros H. destruct name as [| | |s| |n]; try (cbn in H; discriminate).
    + left. eauto.
    + right. exists n. split; [reflexivity|].
      apply validate_multilingual.
      cbn [List.filter] in H.
      change (validate formats string_ (JObj n)) with false in H.
      destruct (validate formats multilingual (JObj n));
        [reflexivity | discriminate].
  - intros [[s ->] | (n & -> & Hn)]; [reflexivity|].
    apply validate_multilingual in Hn.
    cbn [List.filter].
    change (validate formats string_ (JObj n)) with false.
    rewrite Hn. reflexivity.
Qed.

Lemma system_field_unknown k : k ∈ system_fields -> k ∉ known_properties.
Proof.
  intros Hk Hin. revert Hk.
  assert (Forall (fun p => p ∉ system_fields) known_properties) as HF
    by by_evaluation.
  rewrite Forall_forall in HF. apply HF, list_elem_of_In, Hin.
Qed.

(** Reading a declared input property after the three assignments gives
    what it gave before. *)
Lemma with_system_fields_lookup_ne id ts n m k :
  k ∉ system_fields ->
  prop (with_system_fields id ts n m) k = m !! k.
Proof.
  intros Hk. unfold with_system_fields, system_fields in *. cbn [prop].
  unfold assign. rewrite !lookup_insert.
  repeat (case_decide; [subst k; exfalso; apply Hk; in_list|]).
  reflexivity.
Qed.

Lemma storage_accepts_augmented id ts n m :
  validate formats inputSchema (JObj m) = true ->
  formats "date-time" ts = true ->
  validate formats storageSchema (with_system_fields id ts n m) = true.
Proof.
  intros Hin Hts. unfold storageSchema, with_system_fields.
  rewrite validate_object.
  apply andb_true_intro; split; [apply andb_true_intro; split|].
  - rewrite forallb_app. apply andb_true_intro; split.
    + apply forallb_forall. intros [k sub] Hp. cbn [fst snd].
      assert (k ∉ system_fields) as Hk.
      { intros Hs. apply (system_field_unknown k Hs).
        unfold known_properties. apply list_elem_of_fmap.
        exists (k, sub). split; [reflexivity | apply list_elem_of_In, Hp]. }
      pose proof (with_system_fields_lookup_ne id ts n m k Hk) as Hl.
      unfold with_system_fields in Hl. cbn [prop] in Hl. rewrite Hl.
      destruct (m !! k) as [x|] eqn:Hx; [|reflexivity].
      eapply validate_property; [exact Hin | | exact Hx].
      apply list_elem_of_In, Hp.
    + cbn [forallb fst snd]. field_lookups.
      cbn. rewrite Hts. reflexivity.
  - cbn [check_required forallb].
    destruct (validate_required _ _ _ _ "ItemType" Hin) as [x Hx];
      [by_evaluation|].
    destruct (validate_required _ _ _ _ "Name" Hin) as [y Hy];
      [by_evaluation|].
    field_lookups. rewrite Hx, Hy. reflexivity.
  - cbn [check_additional]. apply bool_decide_eq_true. unfold assign.
    rewrite fmap_app.
    repeat (apply map_Forall_insert_2; [by_evaluation|]).
    intros k x Hk. apply elem_of_app. left.
    exact (validate_closed _ _ _ _ _ Hin Hk).
Qed.

Lemma storage_rejects_without k v :
  k ∈ system_fields -> prop v k = None ->
  validate formats storageSchema v = false.
Proof.
  intros Hk Hv. destruct v as [| | | | |m]; try reflexivity.
  unfold storageSchema. rewrite validate_object.
  apply andb_false_intro1, andb_false_intro2. cbn in Hv |- *.
  unfold system_fields in Hk.
  apply elem_of_cons in Hk as [-> | Hk];
    [|apply elem_of_cons in Hk as [-> | Hk];
      [|apply elem_of_cons in Hk as [-> | Hk]; [|inversion Hk]]];
    rewrite Hv; cbn; rewrite ?andb_false_r; reflexivity.
Qed.

Lemma input_rejects_unknown m k x :
  m !! k = Some x -> k ∉ known_properties ->
  validate formats inputSchema (JObj m) = false.
Proof.
  intros Hk Hun. destruct (validate formats inputSchema (JObj m)) eqn:E;
    [|reflexivity].
  exfalso. apply Hun. exact (validate_closed _ _ _ _ _ E Hk).
Qed.

End SchemaFacts.

(* ===================================================================== *)
(** ** Facts about the classifier and the cache *)
(* ===================================================================== *)



Lemma strict_eq_string_true v s :
  strict_eq_string v s = true <-> v = Some (JStr s).
Proof.
  unfold strict_eq_string. split.
  - destruct v as [[| | |t| |]|]; try discriminate.
    intros H. apply bool_decide_eq_true in H. congruence.
  - intros ->. apply bool_decide_eq_true. reflexivity.
Qed.

Lemma isConsumableIngredient_other_type m :
  m !! "ItemType" <> Some (JStr "ingredient") ->
  isConsumableIngredient (JObj m) = Some true.
Proof.
  intros Hne. unfold isConsumableIngredient, strict_eq_string. cbn [prop].
  destruct (m !! "ItemType") as [[| | |t| |]|]; try reflexivity.
  rewrite bool_decide_eq_false_2; [reflexivity|]. congruence.
Qed.

Lemma isConsumableIngredient_category m category :
  m !! "ItemType" = Some (JStr "ingredient") ->
  or_else (m !! "Category") (JStr "") = JStr category ->
  isConsumableIngredient (JObj m)
  = Some (negb (existsb
                  (fun cat =>
                     JSString.includes (JSString.toLowerCase category) cat)
                  nonConsumableCategories)).
Proof.
  intros Ht Hc. unfold isConsumableIngredient, strict_eq_string. cbn [prop].
  rewrite Ht, Hc. reflexivity.
Qed.

(** A record the input schema accepts never makes the classifier throw. *)
Lemma isConsumableIngredient_total formats item :
  validate formats inputSchema item = true ->
  exists b, isConsumableIngredient item = Some b.
Proof.
  intros Hv. destruct (validate_object_inv _ _ _ _ _ Hv) as [m ->].
  destruct (strict_eq_string (m !! "ItemType") "ingredient") eqn:Ht.
  - apply strict_eq_string_true in Ht.
    assert (exists c, or_else (m !! "Category") (JStr "") = JStr c) as [c Hc].
    { unfold or_else. destruct (m !! "Category") as [x|] eqn:Hx; [|eauto].
      destruct (validate_string_inv formats x) as [c ->].
      - eapply validate_property; [exact Hv| |exact Hx]. in_list.
      - destruct (truthy (JStr c)); eauto. }
    rewrite (isConsumableIngredient_category m c Ht Hc). eauto.
  - rewrite isConsumableIngredient_other_type; [eauto|].
    intros Hs. apply strict_eq_string_true in Hs. congruence.
Qed.

(** What a cache read returns: the entry's data when there is an entry
    younger than the time to live, [null] otherwise. *)
Definition cached_value (now : Z) (key : string)
    (c : gmap string CacheEntry) : json :=
  match c !! key with
  | Some cached =>
      if now - timestamp cached <? CACHE_TTL then data cached else JNull
  | None => JNull
  end.

Lemma getCachedResponse_run now key w :
  getCachedResponse now key w = (Normal (cached_value now key (cache w)), w).
Proof. reflexivity. Qed.

Lemma setCachedResponse_run now key item w :
  setCachedResponse now key item w
  = (Normal tt,
     {| cache := <[key := {| data := item; timestamp := now |}]> (cache w);
        calls := calls w |}).
Proof. reflexivity. Qed.

(* ===================================================================== *)
(** ** Running the handler *)
(* ===================================================================== *)

Section Steps.
Context {A B : Type}.
Implicit Types (k : A -> Js B) (w : World).

Lemma bind_ret (a : A) k w : bind (ret a) k w = k a w.
Proof. reflexivity. Qed.
Lemma bind_return r k w : bind (return_ r) k w = (Return r, w).
Proof. reflexivity. Qed.
Lemma bind_throw k w : bind throw k w = (Throw, w).
Proof. reflexivity. Qed.
Lemma bind_or_throw_Some (a : A) k w : bind (or_throw (Some a)) k w = k a w.
Proof. reflexivity. Qed.
Lemma bind_or_throw_None k w : bind (or_throw None) k w = (Throw, w).
Proof. reflexivity. Qed.
Lemma bind_bind {C} (m : Js C) (f : C -> Js A) k w :
  bind (bind m f) k w = bind m (fun c => bind (f c) k) w.
Proof. unfold bind. destruct (m w) as [[c|r|] w']; reflexivity. Qed.
Lemma bind_try_catch (body handle : Js A) k w :
  bind (try_catch body handle) k w
  = match body w with
    | (Normal a, w') => k a w'
    | (Return r, w') => (Return r, w')
    | (Throw, w') => bind handle k w'
    end.
Proof. unfold bind, try_catch. destruct (body w) as [[a|r|] w']; reflexivity. Qed.
End Steps.

Lemma bind_record {B} c (k : unit -> Js B) w :
  bind (record c) k w = k tt {| cache := cache w; calls := calls w ++ [c] |}.
Proof. reflexivity. Qed.
Lemma bind_getCachedResponse {B} now key (k : json -> Js B) w :
  bind (getCachedResponse now key) k w = k (cached_value now key (cache w)) w.
Proof. reflexivity. Qed.
Lemma bind_setCachedResponse {B} now key item (k : unit -> Js B) w :
  bind (setCachedResponse now key item) k w
  = k tt {| cache := <[key := {| data := item; timestamp := now |}]> (cache w);
            calls := calls w |}.
Proof. reflexivity. Qed.

Lemma ret_run {A} (a : A) w : ret a w = (Normal a, w).
Proof. reflexivity. Qed.
Lemma return_run {A} r w : @return_ A r w = (Return r, w).
Proof. reflexivity. Qed.
Lemma throw_run {A} w : @throw A w = (Throw, w).
Proof. reflexivity. Qed.
Lemma or_throw_Some_run {A} (a : A) w : or_throw (Some a) w = (Normal a, w).
Proof. reflexivity. Qed.
Lemma or_throw_None_run {A} w : @or_throw A None w = (Throw, w).
Proof. reflexivity. Qed.
Lemma record_run c w :
  record c w = (Normal tt, {| cache := cache w; calls := calls w ++ [c] |}).
Proof. reflexivity. Qed.

Lemma world_eta w : {| cache := cache w; calls := calls w |} = w.
Proof. destruct w; reflexivity. Qed.

(** One step of a run whose next statement is decided. *)
Ltac js_step :=
  first
    [ rewrite bind_record | rewrite bind_ret | rewrite bind_return
    | rewrite bind_throw | rewrite bind_or_throw_Some
    | rewrite bind_or_throw_None | rewrite bind_getCachedResponse
    | rewrite bind_setCachedResponse | rewrite bind_try_catch
    | rewrite bind_bind
    | progress cbn beta iota delta [negb cache calls] ].

(** Run up to the next undecided condition. *)
Ltac js_eval :=
  cbn beta iota zeta delta
    [bind ret return_ throw record or_throw try_catch read_cache write_cache
     getCachedResponse setCachedResponse negb cache calls].

(** The last statement of a block. *)
Ltac js_last :=
  first
    [ rewrite ret_run | rewrite return_run | rewrite throw_run
    | rewrite or_throw_Some_run | rewrite or_throw_None_run
    | rewrite record_run ].

(** Use the path conditions at hand. *)
Ltac js_known :=
  match goal with
  | H : ?x = _ |- context [?x] => rewrite H
  end.

(** ** The response table *)

(** The rows of the response table, each with what identifies the request's
    path: the search name, the text handed to [JSON.parse], the parsed
    item or its fields.  Two rows stand for the unanticipated exceptions
    the model has: a rejected store query and a throwing [marshall]. *)
Inductive Row :=
  | MissingName
  | CacheHit (s : string) (item : json)
  | QueryThrows (s : string)
  | StoreHit (s : string) (item : json)
  | GenerationFailed (s : string)
  | GeneratorInvalid (s : string)
  | ParseFailed (s : string) (span : option string)
  | InputSchemaViolation (s span : string) (item : json)
  | NotConsumable (s span : string) (item : json)
  | StorageSchemaViolation (s span : string) (fields : gmap string json)
  | MarshallThrows (s span : string) (fields : gmap string json)
  | PersistenceFailed (s span : string) (fields : gmap string json)
  | NewlyStored (s span : string) (fields : gmap string json).

Definition row_status (row : Row) : Z :=
  match row with
  | MissingName => 400
  | CacheHit _ _ | StoreHit _ _ | NewlyStored _ _ _ => 200
  | GeneratorInvalid _ | NotConsumable _ _ _ => 404
  | GenerationFailed _ => 502
  | QueryThrows _ | ParseFailed _ _ | InputSchemaViolation _ _ _
  | StorageSchemaViolation _ _ _ | MarshallThrows _ _ _
  | PersistenceFailed _ _ _ => 500
  end.

Section Table.

Variable sha256_hex : string -> string.
Variable JSON_parse : string -> option json.
Variable JSON_stringify : json -> string.
Variable formats : string -> string -> bool.
Variable env : Env.
Variable event : APIEvent.
Variable w : World.

Definition key_of (s : string) : string := sha256_hex (normalizeName s).
Definition stored (s : string) (fields : gmap string json) : json :=
  with_system_fields (randomUUID env) (toISOString_now env)
                     (normalizeName s) fields.

(** The value the response body is the [JSON.stringify] of. *)
Definition row_payload (row : Row) : json :=
  match row with
  | MissingName => error_body "Search name is required."
  | CacheHit _ item | StoreHit _ item => item_body true item
  | NewlyStored s _ fields => item_body false (stored s fields)
  | GeneratorInvalid s | NotConsumable s _ _ =>
      error_body (not_valid_message s)
  | GenerationFailed _ =>
      error_body "Failed to retrieve data from external service."
  | ParseFailed _ _ =>
      error_body "Failed to parse data from external service."
  | InputSchemaViolation _ _ _ =>
      error_body "Invalid data format received from external service."
  | StorageSchemaViolation _ _ _ =>
      error_body "Invalid data format after adding system fields."
  | PersistenceFailed _ _ _ => error_body "Failed to save item data."
  | QueryThrows _ | MarshallThrows _ _ _ =>
      error_body "Internal server error."
  end.

(** The calls of a request on that row, in order. *)
Definition row_calls (row : Row) : list Call :=
  let upto_generate s :=
    [CacheGet (key_of s); StoreQuery (normalizeName s); Generate s] in
  match row with
  | MissingName => []
  | CacheHit s _ => [CacheGet (key_of s)]
  | QueryThrows s => [CacheGet (key_of s); StoreQuery (normalizeName s)]
  | StoreHit s item =>
      [CacheGet (key_of s); StoreQuery (normalizeName s);
       CacheSet (key_of s) item]
  | GenerationFailed s | GeneratorInvalid s | ParseFailed s None =>
      upto_generate s
  | ParseFailed s (Some span) => upto_generate s ++ [JsonParse span]
  | InputSchemaViolation s span item =>
      upto_generate s ++ [JsonParse span; ValidateInput item]
  | NotConsumable s span item =>
      upto_generate s
      ++ [JsonParse span; ValidateInput item; CheckConsumable item]
  | StorageSchemaViolation s span fields | MarshallThrows s span fields =>
      upto_generate s
      ++ [JsonParse span; ValidateInput (JObj fields);
          CheckConsumable (JObj fields); ValidateStorage (stored s fields)]
  | PersistenceFailed s span fields =>
      upto_generate s
      ++ [JsonParse span; ValidateInput (JObj fields);
          CheckConsumable (JObj fields); ValidateStorage (stored s fields);
          StorePut (stored s fields)]
  | NewlyStored s span fields =>
      upto_generate s
      ++ [JsonParse span; ValidateInput (JObj fields);
          CheckConsumable (JObj fields); ValidateStorage (stored s fields);
          StorePut (stored s fields);
          CacheSet (key_of s) (stored s fields)]
  end.

(** The cache after a request on that row. *)
Definition row_cache (row : Row) (c : gmap string CacheEntry)
  : gmap string CacheEntry :=
  match row with
  | StoreHit s item =>
      <[key_of s := {| data := item; timestamp := now_at_set env |}]> c
  | NewlyStored s _ fields =>
      <[key_of s := {| data := stored s fields;
                       timestamp := now_at_set env |}]> c
  | _ => c
  end.

Definition row_result (row : Row) : Response * World :=
  ({| statusCode := row_status row;
      headers := cors_headers;
      body := JSON_stringify (row_payload row) |},
   {| cache := row_cache row (cache w);
      calls := calls w ++ row_calls row |}).

(** *** When a row applies: the stages a request has passed *)

Definition named (s : string) : Prop :=
  search_name event = Some s /\ s <> "".
Definition cache_miss (s : string) : Prop :=
  truthy (cached_value (now_at_get env) (key_of s) (cache w)) = false.
Definition store_miss (s : string) : Prop :=
  dynamo_query env (normalizeName s) = Some None
  \/ dynamo_query env (normalizeName s) = Some (Some []).
(** the generator is asked about [s] *)
Definition asks_generator (s : string) : Prop :=
  named s /\ cache_miss s /\ store_miss s.
(** ... and replies; [content] is the trimmed reply *)
Definition replied (s content : string) : Prop :=
  asks_generator s
  /\ exists raw, openai_content env s = Some raw
                 /\ content = JSString.trim raw.
(** ... without the error marker *)
Definition unflagged (s content : string) : Prop :=
  replied s content
  /\ JSString.includes (JSString.toLowerCase content) error_marker = false.
(** ... with a brace-delimited [span] that parses to [item] *)
Definition parsed (s span : string) (item : json) : Prop :=
  exists content, unflagged s content
                  /\ json_span content = Some span
                  /\ JSON_parse span = Some item.
(** ... which passes the input schema and the classifier *)
Definition accepted (s span : string) (fields : gmap string json) : Prop :=
  parsed s span (JObj fields)
  /\ validateInput formats (JObj fields) = true
  /\ isConsumableIngredient (JObj fields) = Some true.
(** ... and, with its system fields, the storage schema and [marshall] *)
Definition storable (s span : string) (fields : gmap string json) : Prop :=
  accepted s span fields
  /\ validateStorage formats (stored s fields) = true
  /\ marshall_ok env (stored s fields) = true.

Inductive applies : Row -> Prop :=
  | A_missing :
      search_name event = None \/ search_name event = Some "" ->
      applies MissingName
  | A_cache_hit s :
      named s ->
      truthy (cached_value (now_at_get env) (key_of s) (cache w)) = true ->
      applies (CacheHit s (cached_value (now_at_get env) (key_of s) (cache w)))
  | A_query_throws s :
      named s -> cache_miss s ->
      dynamo_query env (normalizeName s) = None ->
      applies (QueryThrows s)
  | A_store_hit s item rest :
      named s -> cache_miss s ->
      dynamo_query env (normalizeName s) = Some (Some (item :: rest)) ->
      applies (StoreHit s item)
  | A_generation_failed s :
      asks_generator s -> openai_content env s = None ->
      applies (GenerationFailed s)
  | A_generator_invalid s content :
      replied s content ->
      JSString.includes (JSString.toLowerCase content) error_marker = true ->
      applies (GeneratorInvalid s)
  | A_no_json s content :
      unflagged s content -> json_span content = None ->
      applies (ParseFailed s None)
  | A_bad_json s content span :
      unflagged s content -> json_span content = Some span ->
      JSON_parse span = None ->
      applies (ParseFailed s (Some span))
  | A_input_violation s span item :
      parsed s span item -> validateInput formats item = false ->
      applies (InputSchemaViolation s span item)
  | A_not_consumable s span item :
      parsed s span item -> validateInput formats item = true ->
      isConsumableIngredient item = Some false ->
      applies (NotConsumable s span item)
  | A_storage_violation s span fields :
      accepted s span fields ->
      validateStorage formats (stored s fields) = false ->
      applies (StorageSchemaViolation s span fields)
  | A_marshall_throws s span fields :
      accepted s span fields ->
      validateStorage formats (stored s fields) = true ->
      marshall_ok env (stored s fields) = false ->
      applies (MarshallThrows s span fields)
  | A_persistence_failed s span fields :
      storable s span fields ->
      dynamo_put_ok env (stored s fields) = false ->
      applies (PersistenceFailed s span fields)
  | A_newly_stored s span fields :
      storable s span fields ->
      dynamo_put_ok env (stored s fields) = true ->
      applies (NewlyStored s span fields).


(** Open the stage conditions of a row into their equations. *)
Ltac stages :=
  unfold storable, accepted, parsed, unflagged, replied, asks_generator,
         named, cache_miss, store_miss, key_of, stored in *;
  repeat match goal with
         | H : _ /\ _ |- _ => destruct H
         | H : exists _, _ |- _ => destruct H
         end;
  subst.

Lemma handler_named s :
  search_name event = Some s -> s <> "" ->
  handler sha256_hex JSON_parse JSON_stringify formats env event w
  = match lookup_or_generate sha256_hex JSON_parse JSON_stringify formats
            env s w with
    | (Return r, w') => (r, w')
    | (_, w') =>
        (response JSON_stringify 500 (error_body "Internal server error."),
         w')
    end.
Proof.
  intros Hs Hne. unfold handler, handler_body, try_catch. rewrite Hs.
  destruct s as [|a s]; [congruence|].
  destruct (lookup_or_generate _ _ _ _ _ _ _) as [[[]|r|] w']; reflexivity.
Qed.

(** The handler computes the table. *)
Lemma handler_row row :
  applies row ->
  handler sha256_hex JSON_parse JSON_stringify formats env event w
  = row_result row.
Proof.
  destruct 1; stages.
  { unfold handler, handler_body, try_catch, row_result.
    cbn [row_calls row_cache]. rewrite app_nil_r, (world_eta w).
    destruct H as [H|H]; rewrite H; reflexivity. }
  all: rewrite (handler_named s) by assumption.
  all: unfold lookup_or_generate, generate_and_store.
  all: repeat match goal with H : _ \/ _ |- _ => destruct H end.
  all: unfold cached_value in *.
  all: repeat first [progress js_eval | js_known | js_step | js_last].
  all: unfold row_result, stored, key_of, response.
  all: cbn [row_status row_payload row_calls row_cache app].
  all: rewrite <- ?app_assoc.
  all: reflexivity.
Qed.

Ltac row_applies lem :=
  eexists; eapply lem; stages;
  repeat first [eassumption | reflexivity | split | eexists
               | (left; eassumption) | (right; eassumption)].

(** Every request is on some row. *)
Lemma some_row_applies : exists row, applies row.
Proof.
  destruct (search_name event) as [s|] eqn:Hname;
    [|exists MissingName; apply A_missing; left; assumption].
  destruct (decide (s = "")) as [->|Hne];
    [exists MissingName; apply A_missing; right; assumption|].
  destruct (truthy (cached_value (now_at_get env) (key_of s) (cache w)))
    eqn:Hcache; [row_applies A_cache_hit|].
  destruct (dynamo_query env (normalizeName s)) as [[[|item rest]|]|]
    eqn:Hquery;
    [ | row_applies A_store_hit | | row_applies A_query_throws].
  all: destruct (openai_content env s) as [raw|] eqn:Hreply;
    [|row_applies A_generation_failed].
  all: destruct (JSString.includes
                   (JSString.toLowerCase (JSString.trim raw)) error_marker)
    eqn:Hflag; [row_applies A_generator_invalid|].
  all: destruct (json_span (JSString.trim raw)) as [span|] eqn:Hspan;
    [|row_applies A_no_json].
  all: destruct (JSON_parse span) as [item|] eqn:Hparse;
    [|row_applies A_bad_json].
  all: destruct (validateInput formats item) eqn:Hvalid;
    [|row_applies A_input_violation].
  all: destruct (isConsumableIngredient_total formats item Hvalid)
    as [[|] Hcons]; [|row_applies A_not_consumable].
  all: destruct (validate_object_inv _ _ _ _ _ Hvalid) as [fields ->].
  all: destruct (validateStorage formats (stored s fields)) eqn:Hstorage;
    [|row_applies A_storage_violation].
  all: destruct (marshall_ok env (stored s fields)) eqn:Hmarshall;
    [|row_applies A_marshall_throws].
  all: destruct (dynamo_put_ok env (stored s fields)) eqn:Hput;
    [row_applies A_newly_stored | row_applies A_persistence_failed].
Qed.

End Table.

Ltac open_stages :=
  unfold storable, accepted, parsed, unflagged, replied, asks_generator,
         named, cache_miss, store_miss in *;
  repeat match goal with
         | H : _ /\ _ |- _ => destruct H
         | H : exists _, _ |- _ => destruct H
         end.

(* ===================================================================== *)
(** ** Validation *)
(* ===================================================================== *)

(** The name shape tied to the variant: a nutrient's [Name] is a string, an
    ingredient's [Name] is a multilingual object. *)
Definition name_shape_follows_ItemType : Prop :=
  forall formats v,
    validateInput formats v = true ->
    (prop v "ItemType" = Some (JStr "nutrient") ->
     exists s, prop v "Name" = Some (JStr s))
    /\ (prop v "ItemType" = Some (JStr "ingredient") ->
        exists n, prop v "Name" = Some (JObj n) /\ multilingual_shape n).

(** C2, as stated, fails: the input schema accepts a nutrient whose [Name]
    is a multilingual object (and an ingredient whose [Name] is a string);
    the [oneOf] on [Name] does not look at [ItemType]. *)
Lemma name_shape_not_tied_to_ItemType : ~ name_shape_follows_ItemType.
Proof.
  intros H.
  destruct (H Fixture.formats Fixture.nutrient_named_as_ingredient) as [Hn _].
  - vm_compute. reflexivity.
  - destruct Hn as [s Hs]; [vm_compute; reflexivity|].
    vm_compute in Hs. discriminate.
Qed.

(** C2, amended: pre-storage validation passes only if [ItemType] is
    "ingredient" or "nutrient" and [Name] is either a string or a
    multilingual object with [English] mandatory ([Chinese] and [Spanish]
    optional, nothing else), whichever of the two the [ItemType] is; and
    each of the two name shapes is accepted with each of the two types. *)
Theorem name_shape_enforced formats :
  (forall v,
     validateInput formats v = true ->
     exists m itemType name,
       v = JObj m
       /\ m !! "ItemType" = Some (JStr itemType)
       /\ itemType ∈ ["ingredient"; "nutrient"]
       /\ m !! "Name" = Some name
       /\ name_shape name)
  /\ (forall itemType name,
        itemType ∈ ["ingredient"; "nutrient"] ->
        name_shape name ->
        validateInput formats
          (JObj (<["ItemType" := JStr itemType]> {[ "Name" := name ]})) = true).
Proof.
  unfold validateInput, inputSchema. split.
  - intros v Hv. destruct (validate_object_inv _ _ _ _ _ Hv) as [m ->].
    destruct (validate_required _ _ _ _ _ "ItemType" Hv) as [t Ht];
      [by_evaluation|].
    destruct (validate_required _ _ _ _ _ "Name" Hv) as [name Hname];
      [by_evaluation|].
    assert (validate formats (string_enum ["ingredient"; "nutrient"]) t = true)
      as Henum
      by (eapply validate_property; [exact Hv| |exact Ht]; in_list).
    assert (validate formats (oneOf [string_; multilingual]) name = true)
      as Hshape
      by (eapply validate_property; [exact Hv| |exact Hname]; in_list).
    destruct t as [| | |itemType| |]; try (cbn in Henum; discriminate).
    exists m, itemType, name. repeat split; try assumption.
    + cbn in Henum. rewrite !andb_true_r in Henum.
      apply bool_decide_eq_true in Henum. exact Henum.
    + apply validate_name in Hshape. exact Hshape.
  - intros itemType name Ht Hname. rewrite validate_object.
    apply andb_true_intro; split; [apply andb_true_intro; split|].
    + apply forallb_forall. intros [k sub] Hin. cbn [fst snd].
      destruct (decide (k = "ItemType")) as [->|Hk1].
      * rewrite lookup_insert_eq.
        assert (sub = string_enum ["ingredient"; "nutrient"]) as ->.
        { cbn in Hin. repeat (destruct Hin as [Hin|Hin];
                              [inversion Hin; try reflexivity|]).
          destruct Hin. }
        cbn. rewrite !andb_true_r. apply bool_decide_eq_true. exact Ht.
      * rewrite lookup_insert_ne by congruence.
        destruct (decide (k = "Name")) as [->|Hk2].
        -- rewrite lookup_singleton_eq.
           assert (sub = oneOf [string_; multilingual]) as ->.
           { cbn in Hin. repeat (destruct Hin as [Hin|Hin];
                                 [inversion Hin; try reflexivity|]).
             destruct Hin. }
           apply validate_name. exact Hname.
        -- rewrite lookup_singleton_ne by congruence. reflexivity.
    + cbn. rewrite lookup_insert_eq, lookup_insert_ne, lookup_singleton_eq
        by discriminate. reflexivity.
    + cbn [check_additional]. apply bool_decide_eq_true.
      apply map_Forall_insert_2; [by_evaluation|].
      apply map_Forall_singleton. by_evaluation.
Qed.

Lemma name_shape_enforced_witness :
  name_shape (JObj {[ "English" := JStr "Zinc" ]})
  /\ validateInput Fixture.formats
       (JObj (<["ItemType" := JStr "nutrient"]>
                {[ "Name" := JObj {[ "English" := JStr "Zinc" ]} ]})) = true.
Proof.
  assert (name_shape (JObj {[ "English" := JStr "Zinc" ]})) as Hshape.
  { right. eexists. split; [reflexivity|]. split.
    - exists "Zinc". apply lookup_singleton_eq.
    - intros k x Hk. apply lookup_singleton_Some in Hk as [<- <-].
      split; [in_list | eauto]. }
  split; [exact Hshape|].
  apply (proj2 (name_shape_enforced Fixture.formats)); [in_list | exact Hshape].
Defined.

(** C3: a record that passes the input schema, once the three system
    fields are assigned (a string identifier, a timestamp the [date-time]
    format accepts, a string normalized name), passes the storage schema;
    and a value lacking any of the three system fields fails it. *)
Theorem storage_validation_round_trip formats :
  (forall v itemID dateAdded nameLowercase,
     validateInput formats v = true ->
     formats "date-time" dateAdded = true ->
     exists fields,
       v = JObj fields
       /\ validateStorage formats
            (with_system_fields itemID dateAdded nameLowercase fields) = true)
  /\ (forall v k,
        k ∈ system_fields -> prop v k = None ->
        validateStorage formats v = false).
Proof.
  split.
  - intros v itemID dateAdded nameLowercase Hv Hdate.
    destruct (validate_object_inv _ _ _ _ _ Hv) as [fields ->].
    exists fields. split; [reflexivity|].
    apply storage_accepts_augmented; assumption.
  - intros v k Hk Hv. exact (storage_rejects_without formats k v Hk Hv).
Qed.

Lemma storage_validation_round_trip_witness :
  validateStorage Fixture.formats
    (with_system_fields "id-1" Fixture.date (normalizeName " Ginger ")
                        Fixture.ginger_fields) = true
  /\ validateStorage Fixture.formats Fixture.ginger = false.
Proof.
  split.
  - destruct (proj1 (storage_validation_round_trip Fixture.formats)
                Fixture.ginger "id-1" Fixture.date (normalizeName " Ginger "))
      as (fields & Heq & Hok).
    + vm_compute. reflexivity.
    + vm_compute. reflexivity.
    + injection Heq as <-. exact Hok.
  - apply (proj2 (storage_validation_round_trip Fixture.formats)
             Fixture.ginger "ItemID").
    + in_list.
    + vm_compute. reflexivity.
Defined.

(** C7: the input schema is closed: an object with a key outside the known
    property set is rejected, whatever else it holds. *)
Theorem input_schema_is_closed formats (m : gmap string json) k x :
  m !! k = Some x ->
  k ∉ known_properties ->
  validateInput formats (JObj m) = false.
Proof. apply input_rejects_unknown. Qed.

Lemma input_schema_is_closed_witness :
  validateInput Fixture.formats Fixture.ginger = true
  /\ validateInput Fixture.formats
       (JObj (<["Colour" := JStr "yellow"]> Fixture.ginger_fields)) = false.
Proof.
  split; [vm_compute; reflexivity|].
  apply (input_schema_is_closed Fixture.formats _ "Colour" (JStr "yellow")).
  - apply lookup_insert_eq.
  - by_evaluation.
Defined.

Lemma units_app (s1 s2 : string) :
  JSString.units (s1 ++ s2) = (JSString.units s1 ++ JSString.units s2)%list.
Proof.
  unfold JSString.units. induction s1 as [|c s1 IH]; [reflexivity|].
  change (list_ascii_of_string (String c s1 ++ s2))
    with (c :: list_ascii_of_string (s1 ++ s2)).
  rewrite IH. reflexivity.
Qed.

(** *** Occurrences *)

Lemma startsWith_units_app m q : JSString.startsWith_units m (m ++ q) = true.
Proof.
  induction m as [|c m IH]; cbn; [reflexivity|].
  rewrite bool_decide_eq_true_2 by reflexivity. exact IH.
Qed.

Lemma includes_units_app p m q : JSString.includes_units (p ++ m ++ q) m = true.
Proof.
  induction p as [|c p IH].
  - cbn [app]. destruct m as [|d m]; [destruct q; reflexivity|].
    change (JSString.includes_units ((d :: m) ++ q) (d :: m))
      with (JSString.startsWith_units (d :: m) ((d :: m) ++ q)
            || JSString.includes_units (m ++ q) (d :: m)).
    rewrite startsWith_units_app. reflexivity.
  - cbn [app JSString.includes_units]. rewrite IH. apply orb_true_r.
Qed.

Lemma includes_app pre m post : JSString.includes (pre ++ m ++ post) m = true.
Proof.
  unfold JSString.includes. rewrite !units_app. apply includes_units_app.
Qed.

Lemma or_else_category (m : gmap string json) c :
  m !! "Category" = Some (JStr c) \/ (m !! "Category" = None /\ c = "") ->
  or_else (m !! "Category") (JStr "") = JStr c.
Proof.
  intros [Hc | [Hc ->]]; unfold or_else; rewrite Hc; [|reflexivity].
  cbn. destruct (bool_decide (c = "")) eqn:E; [|reflexivity].
  apply bool_decide_eq_true in E. subst. reflexivity.
Qed.





(* ===================================================================== *)
(** ** Consumability and the cache *)
(* ===================================================================== *)



(** C6: [getCachedResponse] returns the entry's item exactly when the key
    has an entry whose age is strictly below 3600000 ms, and [null]
    otherwise; it leaves the cache as it was, the stale entry included;
    [setCachedResponse] puts the item with the current time under the key,
    whatever was there, and touches no other key. *)
Theorem cache_contract now key w :
  (forall entry,
     cache w !! key = Some entry -> now - timestamp entry < 3600000 ->
     getCachedResponse now key w = (Normal (data entry), w))
  /\ (forall entry,
        cache w !! key = Some entry -> 3600000 <= now - timestamp entry ->
        getCachedResponse now key w = (Normal JNull, w))
  /\ (cache w !! key = None ->
      getCachedResponse now key w = (Normal JNull, w))
  /\ (forall item,
        exists w',
          setCachedResponse now key item w = (Normal tt, w')
          /\ cache w' !! key = Some {| data := item; timestamp := now |}
          /\ (forall other, other <> key -> cache w' !! other = cache w !! other)
          /\ calls w' = calls w).
Proof.
  rewrite getCachedResponse_run. unfold cached_value, CACHE_TTL.
  split; [|split; [|split]].
  - intros entry -> Hage.
    destruct (Z.ltb_spec (now - timestamp entry) (60 * 60 * 1000));
      [reflexivity | lia].
  - intros entry -> Hage.
    destruct (Z.ltb_spec (now - timestamp entry) (60 * 60 * 1000));
      [lia | reflexivity].
  - intros ->. reflexivity.
  - intros item. rewrite setCachedResponse_run. eexists.
    split; [reflexivity|]. cbn [cache calls]. split; [|split].
    + apply lookup_insert_eq.
    + intros other Hne. apply lookup_insert_ne. congruence.
    + reflexivity.
Qed.

Lemma cache_contract_witness :
  let stale :=
    {| cache := {[ "k" := {| data := Fixture.zinc; timestamp := 0 |} ]};
       calls := [] |} in
  getCachedResponse 3599999 "k" stale = (Normal Fixture.zinc, stale)
  /\ getCachedResponse 3600000 "k" stale = (Normal JNull, stale)
  /\ getCachedResponse 5 "other" stale = (Normal JNull, stale).
Proof.
  intros stale.
  split; [|split].
  - apply (proj1 (cache_contract 3599999 "k" stale)
             {| data := Fixture.zinc; timestamp := 0 |});
      [apply lookup_singleton_eq | cbn; lia].
  - apply (proj1 (proj2 (cache_contract 3600000 "k" stale))
             {| data := Fixture.zinc; timestamp := 0 |});
      [apply lookup_singleton_eq | cbn; lia].
  - apply (proj1 (proj2 (proj2 (cache_contract 5 "other" stale)))).
    apply lookup_singleton_ne. discriminate.
Defined.

(* ===================================================================== *)
(** ** The handler's responses *)
(* ===================================================================== *)

Lemma handler_on_a_row sha256_hex JSON_parse JSON_stringify formats env event w :
  exists row,
    applies sha256_hex JSON_parse formats env event w row
    /\ handler sha256_hex JSON_parse JSON_stringify formats env event w
       = row_result sha256_hex JSON_stringify env w row.
Proof.
  destruct (some_row_applies sha256_hex JSON_parse formats env event w)
    as [row Hrow].
  exists row. split; [exact Hrow | apply handler_row; exact Hrow].
Qed.


(** The stage conditions of a concrete request, by evaluation. *)
Ltac open_fixture :=
  unfold storable, accepted, parsed, unflagged, replied, asks_generator,
         named, cache_miss, store_miss;
  repeat match goal with |- _ /\ _ => split end;
  try first [ vm_compute; reflexivity
            | right; vm_compute; reflexivity
            | match goal with |- _ <> _ => discriminate end ].


(* ===================================================================== *)
(** ** Keys *)
(* ===================================================================== *)

(** A call that carries a key carries the one derived from [n]: the cache
    calls its fingerprint, the store query [n] itself, the record validated
    for storage and written to the store [n] as its [NameLowercase]. *)
Definition keyed_by (sha256_hex : string -> string) (n : string) (c : Call)
  : Prop :=
  match c with
  | CacheGet k | CacheSet k _ => k = sha256_hex n
  | StoreQuery q => q = n
  | ValidateStorage item | StorePut item =>
      prop item "NameLowercase" = Some (JStr n)
  | _ => True
  end.

(** Two search terms that differ only in the case of their letters and in
    the white space around them. *)
Definition same_search_term (s1 s2 : string) : Prop :=
  exists a1 t1 b1 a2 t2 b2,
    JSString.units s1 = (a1 ++ t1 ++ b1)%list
    /\ JSString.units s2 = (a2 ++ t2 ++ b2)%list
    /\ JSStringFacts.blank a1 /\ JSStringFacts.blank b1
    /\ JSStringFacts.blank a2 /\ JSStringFacts.blank b2
    /\ Forall2 JSStringFacts.same_letter t1 t2.

Lemma normalizeName_units s :
  normalizeName s
  = JSString.of_units
      (map JSString.toLowerUnit (JSString.trim_units (JSString.units s))).
Proof.
  unfold normalizeName, JSString.toLowerCase, JSString.trim.
  rewrite JSStringFacts.units_of_units. reflexivity.
Qed.

Lemma normalizeName_same_search_term s1 s2 :
  same_search_term s1 s2 -> normalizeName s1 = normalizeName s2.
Proof.
  intros (a1 & t1 & b1 & a2 & t2 & b2 & H1 & H2 & Ha1 & Hb1 & Ha2 & Hb2 & Ht).
  rewrite !normalizeName_units, H1, H2.
  rewrite !JSStringFacts.trim_units_pad by assumption.
  rewrite <- !JSStringFacts.trim_units_map_lower.
  rewrite (JSStringFacts.same_letters_lower t1 t2 Ht). reflexivity.
Qed.

(** Trimming and lower-casing, said by code: the white-space units are
    TAB, LF, VT, FF, CR, SP and NBSP; the capitals are A to Z and the
    Latin-1 capitals U+00C0 to U+00DE without U+00D7; the lower case of a
    capital is 32 codes above it, and of any other unit the unit itself. *)
Definition space_code (n : N) : bool :=
  bool_decide (n ∈ [9; 10; 11; 12; 13; 32; 160]%N).
Definition capital_code (n : N) : bool :=
  ((65 <=? n) && (n <=? 90)
   || (192 <=? n) && (n <=? 222) && negb (n =? 215))%N.
Definition lower_case_of (a b : ascii) : Prop :=
  N_of_ascii b
  = if capital_code (N_of_ascii a) then (N_of_ascii a + 32)%N
    else N_of_ascii a.
Definition spaces (l : list ascii) : Prop :=
  Forall (fun c => space_code (N_of_ascii c) = true) l.
(** The first and the last unit of [l], if any, are not white space. *)
Definition no_space_at_ends (l : list ascii) : Prop :=
  (forall c rest, l = c :: rest -> space_code (N_of_ascii c) = false)
  /\ (forall c front, l = (front ++ [c])%list ->
                      space_code (N_of_ascii c) = false).

Lemma isWhiteSpace_code c :
  JSString.isWhiteSpace c = space_code (N_of_ascii c).
Proof. destruct c as [[] [] [] [] [] [] [] []]; vm_compute; reflexivity. Qed.

Lemma toLowerUnit_code a : lower_case_of a (JSString.toLowerUnit a).
Proof. destruct a as [[] [] [] [] [] [] [] []]; vm_compute; reflexivity. Qed.

Lemma spaces_blank l : spaces l <-> JSStringFacts.blank l.
Proof.
  unfold spaces, JSStringFacts.blank. split; intros H;
    (eapply List.Forall_impl; [|exact H]); intros c Hc; cbn in *;
    [rewrite isWhiteSpace_code | rewrite <- isWhiteSpace_code]; exact Hc.
Qed.

Lemma no_space_at_ends_solid l :
  no_space_at_ends l <->
  JSStringFacts.starts_solid l /\ JSStringFacts.starts_solid (rev l).
Proof.
  unfold no_space_at_ends. split.
  - intros [Hfirst Hlast]. split.
    + destruct l as [|c rest]; [exact I|]. cbn.
      rewrite isWhiteSpace_code. exact (Hfirst c rest eq_refl).
    + destruct (rev l) as [|c front] eqn:E; [exact I|]. cbn.
      rewrite isWhiteSpace_code. apply (Hlast c (rev front)).
      rewrite <- (rev_involutive l), E. reflexivity.
  - intros [Hfirst Hlast]. split.
    + intros c rest ->. cbn in Hfirst.
      rewrite <- isWhiteSpace_code. exact Hfirst.
    + intros c front ->. rewrite rev_app_distr in Hlast. cbn in Hlast.
      rewrite <- isWhiteSpace_code. exact Hlast.
Qed.

Lemma lower_case_of_map l :
  Forall2 lower_case_of l (map JSString.toLowerUnit l).
Proof.
  induction l as [|a l IH]; cbn; constructor;
    [apply toLowerUnit_code | exact IH].
Qed.

Lemma normalizeName_of_core s a core b :
  JSString.units s = (a ++ core ++ b)%list ->
  spaces a -> spaces b -> no_space_at_ends core ->
  Forall2 lower_case_of core (JSString.units (normalizeName s)).
Proof.
  intros Hs Ha Hb Hcore.
  apply spaces_blank in Ha, Hb. apply no_space_at_ends_solid in Hcore as [H1 H2].
  rewrite normalizeName_units, JSStringFacts.units_of_units, Hs.
  rewrite JSStringFacts.trim_units_core by assumption.
  apply lower_case_of_map.
Qed.

Lemma name_has_core s :
  exists a core b,
    JSString.units s = (a ++ core ++ b)%list
    /\ spaces a /\ spaces b /\ no_space_at_ends core.
Proof.
  destruct (JSStringFacts.trim_units_split (JSString.units s))
    as (a & b & Ha & Hb & Hs & H1 & H2).
  exists a, (JSString.trim_units (JSString.units s)), b.
  split; [exact Hs|]. split; [apply spaces_blank, Ha|].
  split; [apply spaces_blank, Hb|].
  apply no_space_at_ends_solid. split; assumption.
Qed.

(** C5: in a request for the search name [s], the store is queried by
    [normalizeName s], the cache is read and written under the fingerprint
    of [normalizeName s], and the record validated for storage and put in
    the store has [normalizeName s] as its [NameLowercase], whatever the
    generator replied.  [normalizeName s] is the search name trimmed and
    lower-cased: every name is white space, a core without white space at
    its ends, and white space; and the normalized name is that core, unit
    by unit, with each capital replaced by its lower case.  So two search
    terms that differ only in case or in surrounding white space have the
    same normalized name.  (Strings are over the code units U+0000 to
    U+00FF.) *)
Theorem keys_from_normalized_search_name :
  (forall sha256_hex JSON_parse JSON_stringify formats env event w s,
     search_name event = Some s ->
     exists new,
       calls (handler sha256_hex JSON_parse JSON_stringify formats
                      env event w).2
       = (calls w ++ new)%list
       /\ Forall (keyed_by sha256_hex (normalizeName s)) new)
  /\ (forall s,
        exists a core b,
          JSString.units s = (a ++ core ++ b)%list
          /\ spaces a /\ spaces b /\ no_space_at_ends core)
  /\ (forall s a core b,
        JSString.units s = (a ++ core ++ b)%list ->
        spaces a -> spaces b -> no_space_at_ends core ->
        Forall2 lower_case_of core (JSString.units (normalizeName s)))
  /\ (forall s1 s2, same_search_term s1 s2 -> normalizeName s1 = normalizeName s2)
  /\ normalizeName (String "009" " Ginger ROOT  ") = "ginger root".
Proof.
  split; [|split; [exact name_has_core|split; [exact normalizeName_of_core|
    split; [exact normalizeName_same_search_term | reflexivity]]]].
  intros sha256_hex JSON_parse JSON_stringify formats env event w s Hname.
  destruct (handler_on_a_row sha256_hex JSON_parse JSON_stringify formats
              env event w) as (row & Hrow & ->).
  exists (row_calls sha256_hex env row). split; [reflexivity|].
  destruct Hrow; open_stages;
    try match goal with
        | H : search_name event = Some ?s' |- _ =>
            assert (s' = s) by congruence; subst s'
        end;
    cbn [row_calls app]; unfold key_of, stored, with_system_fields, assign;
    repeat match goal with
           | |- Forall _ (_ :: _) => apply List.Forall_cons
           | |- Forall _ [] => apply List.Forall_nil
           end;
    cbn [keyed_by prop]; try exact I; try reflexivity;
    apply lookup_insert_eq.
Qed.

Lemma keys_from_normalized_search_name_witness :
  same_search_term " Ginger " "ginger"
  /\ normalizeName " Ginger " = normalizeName "ginger"
  /\ Forall2 lower_case_of (JSString.units "Ginger")
                           (JSString.units (normalizeName " Ginger "))
  /\ normalizeName " Ginger " = "ginger"
  /\ (exists new,
        calls (Fixture.run None " Ginger ").2 = ([] ++ new)%list
        /\ Forall (keyed_by Fixture.sha256_hex "ginger") new).
Proof.
  assert (same_search_term " Ginger " "ginger") as Hsame.
  { exists (JSString.units " "), (JSString.units "Ginger"),
           (JSString.units " "), [], (JSString.units "ginger"), [].
    repeat match goal with |- _ /\ _ => split end;
      try reflexivity; solve [repeat constructor]. }
  destruct keys_from_normalized_search_name
    as (Hkeys & _ & Hcore & Hinvariant & _).
  split; [exact Hsame|]. split; [exact (Hinvariant _ _ Hsame)|].
  split; [|split; [reflexivity|]].
  - apply (Hcore " Ginger " (JSString.units " ") (JSString.units "Ginger")
                 (JSString.units " ")).
    + reflexivity.
    + repeat constructor.
    + repeat constructor.
    + split.
      * intros c rest H. injection H as <- _. reflexivity.
      * intros c front H.
        apply (f_equal (@rev ascii)) in H. rewrite rev_app_distr in H.
        cbn in H. injection H as <- _. reflexivity.
  - exact (Hkeys Fixture.sha256_hex Fixture.JSON_parse Fixture.JSON_stringify
             Fixture.formats (Fixture.env None) (Fixture.request " Ginger ")
             Fixture.cold " Ginger " eq_refl).
Defined.

(* ===================================================================== *)
(** ** What an error leaves behind *)
(* ===================================================================== *)



(** C9: a request whose response status is not 200 leaves the cache as it
    was and makes no cache write; a cache write is made only for the first
    item of a store hit or for a record the store has accepted. *)
Theorem errors_leave_cache_unchanged
    sha256_hex JSON_parse JSON_stringify formats env event w :
  let run := handler sha256_hex JSON_parse JSON_stringify formats env event w in
  exists new,
    calls run.2 = (calls w ++ new)%list
    /\ (statusCode run.1 <> 200 ->
        cache run.2 = cache w /\ forall k item, CacheSet k item ∉ new)
    /\ (forall k item,
          CacheSet k item ∈ new ->
          statusCode run.1 = 200
          /\ ((exists n rest, dynamo_query env n = Some (Some (item :: rest)))
              \/ dynamo_put_ok env item = true)).
Proof.
  intros run. subst run.
  destruct (handler_on_a_row sha256_hex JSON_parse JSON_stringify formats
              env event w) as (row & Hrow & ->).
  exists (row_calls sha256_hex env row). split; [reflexivity|].
  cbn [fst snd row_result statusCode cache].
  destruct Hrow; cbn [row_status row_cache row_calls app]; split;
    try (intros Hne; exfalso; apply Hne; reflexivity);
    try (intros _; split; [reflexivity|]);
    intros k item' Hin;
    repeat (apply elem_of_cons in Hin as [Hin|Hin];
            [try discriminate Hin|]);
    try (inversion Hin; fail).
  - injection Hin as -> ->. split; [reflexivity|]. left. eauto.
  - injection Hin as -> ->. split; [reflexivity|]. right. assumption.
Qed.

Lemma errors_leave_cache_unchanged_witness :
  let run := Fixture.run (Some "{bottle}") "bottle" in
  statusCode run.1 = 404 /\ cache run.2 = ∅.
Proof.
  intros run.
  destruct (errors_leave_cache_unchanged Fixture.sha256_hex Fixture.JSON_parse
              Fixture.JSON_stringify Fixture.formats
              (Fixture.env (Some "{bottle}"))
              (Fixture.request "bottle") Fixture.cold)
    as (new & _ & Herror & _).
  split; [vm_compute; reflexivity|].
  apply Herror. vm_compute. discriminate.
Defined.

(** C10: a name that is not empty and consists of white space only is not
    answered with 400: its normalized name is the empty string, the cache
    is read under the fingerprint of the empty string, and on a cache miss
    the store is queried by the empty string. *)
Theorem whitespace_only_name_is_searched
    sha256_hex JSON_parse JSON_stringify formats env event w s :
  search_name event = Some s ->
  s <> "" ->
  Forall (fun c => JSString.isWhiteSpace c = true) (JSString.units s) ->
  let run := handler sha256_hex JSON_parse JSON_stringify formats env event w in
  normalizeName s = ""
  /\ statusCode run.1 <> 400
  /\ exists rest,
       calls run.2 = (calls w ++ CacheGet (sha256_hex "") :: rest)%list
       /\ (truthy (cached_value (now_at_get env) (sha256_hex "") (cache w))
           = false ->
           exists rest', rest = StoreQuery "" :: rest').
Proof.
  intros Hname Hne Hblank run. subst run.
  assert (normalizeName s = "") as Hnorm.
  { rewrite normalizeName_units, JSStringFacts.trim_units_blank by exact Hblank.
    reflexivity. }
  split; [exact Hnorm|].
  destruct (handler_on_a_row sha256_hex JSON_parse JSON_stringify formats
              env event w) as (row & Hrow & ->).
  cbn [fst snd row_result statusCode calls].
  destruct Hrow; open_stages;
    try match goal with
        | H : search_name event = Some ?s' |- _ =>
            assert (s' = s) by congruence; subst s'
        end;
    try (destruct H; congruence);
    cbn [row_status row_calls app]; unfold key_of in *;
    rewrite ?Hnorm in *;
    (split; [discriminate|]);
    eexists; (split; [reflexivity|]); intros Hmiss;
    try congruence; eexists; reflexivity.
Qed.

Lemma whitespace_only_name_is_searched_witness :
  let run := Fixture.run None " " in
  normalizeName " " = "" /\ statusCode run.1 = 502
  /\ exists rest, calls run.2 = CacheGet "sha256:" :: StoreQuery "" :: rest.
Proof.
  intros run.
  destruct (whitespace_only_name_is_searched Fixture.sha256_hex
              Fixture.JSON_parse Fixture.JSON_stringify Fixture.formats
              (Fixture.env None) (Fixture.request " ") Fixture.cold " ")
    as (Hnorm & _ & rest & Hcalls & Hquery).
  - reflexivity.
  - discriminate.
  - repeat constructor.
  - split; [exact Hnorm|]. split; [vm_compute; reflexivity|].
    destruct Hquery as [rest' ->]; [vm_compute; reflexivity|].
    exists rest'. exact Hcalls.
Defined.

(* ===================================================================== *)
(** ** More on the helper functions *)
(* ===================================================================== *)

Lemma trim_units_idem l :
  JSString.trim_units (JSString.trim_units l) = JSString.trim_units l.
Proof.
  destruct (JSStringFacts.trim_units_split l) as (a & b & _ & _ & _ & Hs & Hr).
  rewrite <- (app_nil_r (JSString.trim_units l)) at 1.
  change (JSString.trim_units l ++ [])%list
    with ([] ++ JSString.trim_units l ++ [])%list.
  apply JSStringFacts.trim_units_core; try constructor; assumption.
Qed.

Lemma map_toLowerUnit_idem l :
  map JSString.toLowerUnit (map JSString.toLowerUnit l)
  = map JSString.toLowerUnit l.
Proof.
  induction l as [|c l IH]; cbn; [reflexivity|].
  rewrite JSStringFacts.toLowerUnit_idem, IH. reflexivity.
Qed.

(** X1: a normalized name is in normal form: normalizing, trimming or
    lower-casing it again changes nothing. *)
Theorem normalizeName_idempotent s :
  normalizeName (normalizeName s) = normalizeName s
  /\ JSString.trim (normalizeName s) = normalizeName s
  /\ JSString.toLowerCase (normalizeName s) = normalizeName s.
Proof.
  assert (JSString.trim (normalizeName s) = normalizeName s) as Htrim.
  { rewrite normalizeName_units. unfold JSString.trim.
    rewrite JSStringFacts.units_of_units.
    rewrite <- JSStringFacts.trim_units_map_lower, trim_units_idem.
    reflexivity. }
  assert (JSString.toLowerCase (normalizeName s) = normalizeName s) as Hlower.
  { rewrite normalizeName_units. unfold JSString.toLowerCase.
    rewrite JSStringFacts.units_of_units, map_toLowerUnit_idem. reflexivity. }
  split; [|split; assumption].
  unfold normalizeName at 1. rewrite Htrim. exact Hlower.
Qed.

(** X2: the normalized name is empty exactly when the name consists of
    white space only (the empty name included). *)
Theorem normalizeName_empty_iff s :
  normalizeName s = ""
  <-> Forall (fun c => JSString.isWhiteSpace c = true) (JSString.units s).
Proof.
  rewrite normalizeName_units. split.
  - intros H.
    apply (f_equal JSString.units) in H.
    rewrite JSStringFacts.units_of_units in H. cbn in H.
    apply map_eq_nil in H.
    destruct (JSStringFacts.trim_units_split (JSString.units s))
      as (a & b & Ha & Hb & Hl & _ & _).
    rewrite Hl, H. cbn. apply Forall_app. split; assumption.
  - intros H. rewrite JSStringFacts.trim_units_blank by exact H. reflexivity.
Qed.

Lemma normalizeName_empty_iff_witness :
  normalizeName (String "009" " ") = "" /\ normalizeName " a " <> "".
Proof.
  split.
  - apply (proj2 (normalizeName_empty_iff (String "009" " "))).
    repeat constructor.
  - intros H. apply (proj1 (normalizeName_empty_iff " a ")) in H.
    inversion H as [|? ? _ H1]. inversion H1 as [|? ? Ha _].
    vm_compute in Ha. discriminate.
Defined.

(** X3: an ingredient whose category, lower-cased, has a denylist term
    anywhere inside it (with any text before and after) is rejected. *)
Theorem denylist_term_anywhere_rejects (m : gmap string json)
    category pre term post :
  m !! "ItemType" = Some (JStr "ingredient") ->
  m !! "Category" = Some (JStr category) ->
  term ∈ nonConsumableCategories ->
  JSString.toLowerCase category = pre ++ term ++ post ->
  isConsumableIngredient (JObj m) = Some false.
Proof.
  intros Ht Hc Hterm Hlower.
  rewrite (isConsumableIngredient_category m category Ht
             (or_else_category m category (or_introl Hc))).
  f_equal. apply negb_false_iff, existsb_exists.
  exists term. split; [apply list_elem_of_In, Hterm|].
  rewrite Hlower. apply includes_app.
Qed.

Lemma denylist_term_anywhere_rejects_witness :
  isConsumableIngredient
    (JObj (<["Category" := JStr "Industrial CHEMICAL compound"]>
             {[ "ItemType" := JStr "ingredient" ]})) = Some false.
Proof.
  apply (denylist_term_anywhere_rejects _ "Industrial CHEMICAL compound"
           "industrial " "chemical" " compound").
  - vm_compute. reflexivity.
  - apply lookup_insert_eq.
  - in_list.
  - reflexivity.
Defined.

(** X4: the classifier throws in two cases only: on [null], and on an
    ingredient whose [Category] is truthy and not a string; every other
    value whose [ItemType] is not the string "ingredient" (no [ItemType],
    another type, an array, a primitive) is answered [true]. *)
Theorem isConsumableIngredient_throws_iff v :
  (isConsumableIngredient v = None
   <-> v = JNull
       \/ (prop v "ItemType" = Some (JStr "ingredient")
           /\ exists c, prop v "Category" = Some c
                        /\ truthy c = true
                        /\ forall s, c <> JStr s))
  /\ (v <> JNull ->
      prop v "ItemType" <> Some (JStr "ingredient") ->
      isConsumableIngredient v = Some true).
Proof.
  assert (forall v, v <> JNull ->
            prop v "ItemType" <> Some (JStr "ingredient") ->
            isConsumableIngredient v = Some true) as Hother.
  { intros u Hu Ht. unfold isConsumableIngredient.
    destruct (strict_eq_string (prop u "ItemType") "ingredient") eqn:E.
    - apply strict_eq_string_true in E. congruence.
    - destruct u; try reflexivity. congruence. }
  split; [|apply Hother].
  split.
  - intros Hnone. destruct v as [| | | | |m]; [left; reflexivity|..];
      try (unfold isConsumableIngredient in Hnone; cbn in Hnone; discriminate).
    right. unfold isConsumableIngredient in Hnone. cbn [prop] in *.
    destruct (strict_eq_string (m !! "ItemType") "ingredient") eqn:E;
      [|discriminate].
    apply strict_eq_string_true in E. split; [exact E|].
    unfold or_else in Hnone.
    destruct (m !! "Category") as [c|]; [|discriminate].
    exists c. split; [reflexivity|].
    destruct (truthy c) eqn:Hc; [|discriminate].
    split; [reflexivity|]. intros s ->. discriminate.
  - intros [-> | (Ht & c & Hc & Htruthy & Hns)]; [reflexivity|].
    destruct v as [| | | | |m]; try discriminate. cbn [prop] in *.
    unfold isConsumableIngredient, or_else. cbn [prop].
    rewrite Ht, Hc, Htruthy. cbn.
    rewrite bool_decide_eq_true_2 by reflexivity. cbn.
    destruct c; try reflexivity. exfalso. eapply Hns. reflexivity.
Qed.

Lemma isConsumableIngredient_throws_iff_witness :
  isConsumableIngredient
    (JObj (<["Category" := JBool true]> {[ "ItemType" := JStr "ingredient" ]}))
  = None
  /\ isConsumableIngredient (JObj {[ "Category" := JStr "poison" ]}) = Some true.
Proof.
  split.
  - apply (proj1 (isConsumableIngredient_throws_iff _)). right.
    split; [vm_compute; reflexivity|].
    exists (JBool true). split; [apply lookup_insert_eq|].
    split; [reflexivity | discriminate].
  - apply (proj2 (isConsumableIngredient_throws_iff _)); [discriminate|].
    vm_compute. discriminate.
Defined.

(* ===================================================================== *)
(** ** More on the cache *)
(* ===================================================================== *)

Lemma cached_value_insert now' now key item (c : gmap string CacheEntry) :
  cached_value now' key (<[key := {| data := item; timestamp := now |}]> c)
  = if now' - now <? CACHE_TTL then item else JNull.
Proof. unfold cached_value. rewrite lookup_insert_eq. reflexivity. Qed.

(** X5: a read after a write of the same key returns the written item
    while the clock is less than 3600000 ms past the write (a clock that
    went backwards included) and [null] from then on; after two writes the
    read sees the second one. *)
Theorem cache_read_after_write now now' key item w :
  let w1 := (setCachedResponse now key item w).2 in
  (now' - now < 3600000 ->
   getCachedResponse now' key w1 = (Normal item, w1))
  /\ (3600000 <= now' - now ->
      getCachedResponse now' key w1 = (Normal JNull, w1))
  /\ (forall now2 item2,
        now' - now2 < 3600000 ->
        let w2 := (setCachedResponse now2 key item2 w1).2 in
        getCachedResponse now' key w2 = (Normal item2, w2)).
Proof.
  intros w1. subst w1. rewrite setCachedResponse_run. cbn [snd].
  split; [|split].
  - intros Hage. rewrite getCachedResponse_run. cbn [cache].
    rewrite cached_value_insert. unfold CACHE_TTL.
    destruct (Z.ltb_spec (now' - now) (60 * 60 * 1000)); [reflexivity | lia].
  - intros Hage. rewrite getCachedResponse_run. cbn [cache].
    rewrite cached_value_insert. unfold CACHE_TTL.
    destruct (Z.ltb_spec (now' - now) (60 * 60 * 1000)); [lia | reflexivity].
  - intros now2 item2 Hage. cbn zeta.
    rewrite ?setCachedResponse_run. cbn [snd].
    rewrite getCachedResponse_run. cbn [cache].
    rewrite cached_value_insert. unfold CACHE_TTL.
    destruct (Z.ltb_spec (now' - now2) (60 * 60 * 1000)); [reflexivity | lia].
Qed.

Lemma cache_read_after_write_witness :
  let w1 := (setCachedResponse 5000 "k" Fixture.zinc Fixture.cold).2 in
  getCachedResponse 4000 "k" w1 = (Normal Fixture.zinc, w1)
  /\ getCachedResponse 3604999 "k" w1 = (Normal Fixture.zinc, w1)
  /\ getCachedResponse 3605000 "k" w1 = (Normal JNull, w1).
Proof.
  intros w1.
  destruct (cache_read_after_write 5000 4000 "k" Fixture.zinc Fixture.cold)
    as (Hback & _ & _).
  destruct (cache_read_after_write 5000 3604999 "k" Fixture.zinc Fixture.cold)
    as (Hfresh & _ & _).
  destruct (cache_read_after_write 5000 3605000 "k" Fixture.zinc Fixture.cold)
    as (_ & Hstale & _).
  split; [apply Hback; lia | split; [apply Hfresh; lia | apply Hstale; lia]].
Defined.

(* ===================================================================== *)
(** ** More on the two schemas *)
(* ===================================================================== *)

(** A record with the three system fields taken away. *)
Definition without_system_fields (m : gmap string json) : gmap string json :=
  delete "ItemID" (delete "DateAdded" (delete "NameLowercase" m)).

(** The properties of [inputSchema] by the schema they are given. *)
Definition text_fields : list string :=
  [ "FiveElements"; "Category"; "OriginRegion"; "SeasonalAvailability";
    "AllergenInformation"; "RecommendedDailyIntake" ].
Definition list_fields : list string :=
  [ "AlternateNames"; "FlavorProfile"; "MedicinalProperties";
    "CommonCulinaryUses"; "PreparationTips"; "DietaryRestrictions";
    "SubstituteIngredients"; "CulinaryTechniques"; "Functions"; "Sources";
    "DeficiencySymptoms"; "ExcessSymptoms"; "TopFoodSources" ].
Definition free_object_fields : list string :=
  [ "NutritionalInformation"; "StorageMethods"; "CulturalSignificance";
    "HistoricalUsage"; "EnvironmentalImpact" ].

Section MoreSchemaFacts.

Variable formats : string -> string -> bool.

Lemma validate_string_format_inv name v :
  validate formats (string_format name) v = true ->
  exists s, v = JStr s /\ formats name s = true.
Proof.
  destruct v; cbn; try discriminate. intros H. eauto.
Qed.

Lemma validate_string_enum_inv allowed v :
  validate formats (string_enum allowed) v = true ->
  exists s, v = JStr s /\ s ∈ allowed.
Proof.
  destruct v as [| | |s| |]; cbn; try discriminate.
  rewrite !andb_true_r. intros H. apply bool_decide_eq_true in H. eauto.
Qed.

Lemma validate_array_of_string_inv v :
  validate formats (array_of string_) v = true ->
  exists l, v = JArr (JStr <$> l).
Proof.
  destruct v as [| | | |l|]; cbn; try discriminate.
  rewrite andb_true_r. intros H.
  induction l as [|x l IH].
  - exists []. reflexivity.
  - cbn [forallb] in H. apply andb_prop in H as [Hx Hl].
    destruct (validate_string_inv formats x Hx) as [s ->].
    destruct (IH Hl) as [ss Hss]. injection Hss as ->.
    exists (s :: ss). reflexivity.
Qed.

Lemma validate_open_object_inv v :
  validate formats open_object v = true -> exists o, v = JObj o.
Proof. destruct v; cbn; try discriminate. eauto. Qed.

Lemma storage_property k sub :
  (k, sub) ∈ inputSchema_properties ->
  (k, sub) ∈ (inputSchema_properties
              ++ [ ("ItemID", string_);
                   ("DateAdded", string_format "date-time");
                   ("NameLowercase", string_) ])%list.
Proof. intros H. apply elem_of_app. left. exact H. Qed.

Lemma without_system_fields_lookup m k :
  k ∉ system_fields -> without_system_fields m !! k = m !! k.
Proof.
  intros Hk. unfold without_system_fields.
  rewrite !lookup_delete_ne; [reflexivity|..];
    intros <-; apply Hk; in_list.
Qed.

Lemma without_system_fields_lookup_Some m k x :
  without_system_fields m !! k = Some x ->
  (k ∉ system_fields) /\ m !! k = Some x.
Proof.
  unfold without_system_fields. intros H.
  apply lookup_delete_Some in H as [H1 H].
  apply lookup_delete_Some in H as [H2 H].
  apply lookup_delete_Some in H as [H3 H].
  split; [|exact H]. unfold system_fields. intros Hin.
  repeat (apply elem_of_cons in Hin as [Hin|Hin]; [congruence|]).
  inversion Hin.
Qed.

Lemma storage_valid_fields m :
  validate formats storageSchema (JObj m) = true ->
  exists itemID dateAdded nameLowercase,
    m !! "ItemID" = Some (JStr itemID)
    /\ m !! "DateAdded" = Some (JStr dateAdded)
    /\ formats "date-time" dateAdded = true
    /\ m !! "NameLowercase" = Some (JStr nameLowercase).
Proof.
  intros Hv. unfold storageSchema in Hv.
  destruct (validate_required _ _ _ _ _ "ItemID" Hv) as [x Hx]; [in_list|].
  destruct (validate_required _ _ _ _ _ "DateAdded" Hv) as [y Hy]; [in_list|].
  destruct (validate_required _ _ _ _ _ "NameLowercase" Hv) as [z Hz];
    [in_list|].
  destruct (validate_string_inv formats x) as [itemID ->].
  { eapply validate_property; [exact Hv| |exact Hx].
    apply elem_of_app. right. in_list. }
  destruct (validate_string_format_inv "date-time" y) as (dateAdded & -> & Hd).
  { eapply validate_property; [exact Hv| |exact Hy].
    apply elem_of_app. right. in_list. }
  destruct (validate_string_inv formats z) as [nameLowercase ->].
  { eapply validate_property; [exact Hv| |exact Hz].
    apply elem_of_app. right. in_list. }
  eauto 10.
Qed.

Lemma storage_valid_strips m :
  validate formats storageSchema (JObj m) = true ->
  validate formats inputSchema (JObj (without_system_fields m)) = true.
Proof.
  intros Hv. unfold storageSchema in Hv. unfold inputSchema.
  rewrite validate_object.
  apply andb_true_intro; split; [apply andb_true_intro; split|].
  - apply forallb_forall. intros [k sub] Hp. cbn [fst snd].
    apply list_elem_of_In in Hp.
    assert (k ∉ system_fields) as Hk.
    { intros Hs. apply (system_field_unknown k Hs).
      unfold known_properties. apply list_elem_of_fmap.
      exists (k, sub). split; [reflexivity | exact Hp]. }
    rewrite without_system_fields_lookup by exact Hk.
    destruct (m !! k) as [x|] eqn:Hx; [|reflexivity].
    eapply validate_property; [exact Hv | | exact Hx].
    apply storage_property, Hp.
  - cbn [check_required forallb].
    destruct (validate_required _ _ _ _ _ "ItemType" Hv) as [x Hx]; [in_list|].
    destruct (validate_required _ _ _ _ _ "Name" Hv) as [y Hy]; [in_list|].
    rewrite !without_system_fields_lookup, Hx, Hy
      by (unfold system_fields; intros Hin;
          repeat (apply elem_of_cons in Hin as [Hin|Hin]; [discriminate|]);
          inversion Hin).
    reflexivity.
  - cbn [check_additional]. apply bool_decide_eq_true.
    intros k x Hk.
    apply without_system_fields_lookup_Some in Hk as [Hns Hk].
    pose proof (validate_closed _ _ _ _ _ _ Hv Hk) as Hin.
    rewrite fmap_app in Hin. apply elem_of_app in Hin as [Hin|Hin];
      [exact Hin|].
    exfalso. apply Hns. exact Hin.
Qed.

End MoreSchemaFacts.

(** X6: the storage schema is the input schema plus the three system
    fields: a record the storage schema accepts holds a string [ItemID], a
    [DateAdded] string in the date-time format and a string
    [NameLowercase], and without the three it is accepted by the input
    schema; taking the three away from a record they were assigned to gives
    the record back. *)
Theorem storage_schema_extends_input formats (m : gmap string json) :
  (validateStorage formats (JObj m) = true ->
   (exists itemID dateAdded nameLowercase,
      m !! "ItemID" = Some (JStr itemID)
      /\ m !! "DateAdded" = Some (JStr dateAdded)
      /\ formats "date-time" dateAdded = true
      /\ m !! "NameLowercase" = Some (JStr nameLowercase))
   /\ validateInput formats (JObj (without_system_fields m)) = true)
  /\ (validateInput formats (JObj m) = true ->
      forall itemID dateAdded nameLowercase m',
        with_system_fields itemID dateAdded nameLowercase m = JObj m' ->
        without_system_fields m' = m).
Proof.
  split.
  - intros Hv. split; [apply storage_valid_fields | apply storage_valid_strips];
      exact Hv.
  - intros Hv itemID dateAdded nameLowercase m' Heq.
    unfold with_system_fields, assign in Heq. injection Heq as <-.
    assert (forall k, k ∈ system_fields -> m !! k = None) as Hnone.
    { intros k Hk. destruct (m !! k) as [x|] eqn:Hx; [|reflexivity].
      exfalso. apply (system_field_unknown k Hk).
      exact (validate_closed _ _ _ _ _ _ Hv Hx). }
    apply map_eq. intros k.
    destruct (decide (k ∈ system_fields)) as [Hk|Hk].
    + rewrite (Hnone k Hk). unfold without_system_fields, system_fields in *.
      repeat (apply elem_of_cons in Hk as [->|Hk];
              [rewrite ?lookup_delete_eq;
               rewrite ?lookup_delete_ne by discriminate;
               rewrite ?lookup_delete_eq; reflexivity|]).
      inversion Hk.
    + rewrite without_system_fields_lookup by exact Hk.
      rewrite !lookup_insert_ne; [reflexivity|..];
        intros <-; apply Hk; in_list.
Qed.

Lemma storage_schema_extends_input_witness :
  let stored_ginger :=
    <["NameLowercase" := JStr "ginger"]>
      (<["DateAdded" := JStr Fixture.date]>
         (<["ItemID" := JStr "id-1"]> Fixture.ginger_fields)) in
  validateInput Fixture.formats (JObj (without_system_fields stored_ginger))
  = true.
Proof.
  intros stored_ginger.
  apply (proj1 (storage_schema_extends_input Fixture.formats stored_ginger)).
  vm_compute. reflexivity.
Defined.

(** X7: the two stages exclude each other: no value passes both the input
    schema and the storage schema. *)
Theorem no_value_passes_both_schemas formats v :
  validateInput formats v = true -> validateStorage formats v = false.
Proof.
  intros Hin. destruct (validate_object_inv _ _ _ _ _ Hin) as [m ->].
  destruct (validateStorage formats (JObj m)) eqn:Hst; [|reflexivity].
  exfalso.
  destruct (storage_valid_fields formats m Hst) as (itemID & _ & _ & Hid & _).
  apply (system_field_unknown "ItemID"); [in_list|].
  exact (validate_closed _ _ _ _ _ _ Hin Hid).
Qed.

Lemma no_value_passes_both_schemas_witness :
  validateStorage Fixture.formats Fixture.zinc = false.
Proof.
  apply no_value_passes_both_schemas. vm_compute. reflexivity.
Defined.

Lemma text_fields_declared :
  Forall (fun k => (k, string_) ∈ inputSchema_properties) text_fields.
Proof. repeat apply List.Forall_cons; try apply List.Forall_nil; in_list. Qed.

Lemma list_fields_declared :
  Forall (fun k => (k, array_of string_) ∈ inputSchema_properties) list_fields.
Proof. repeat apply List.Forall_cons; try apply List.Forall_nil; in_list. Qed.

Lemma free_object_fields_declared :
  Forall (fun k => (k, open_object) ∈ inputSchema_properties)
         free_object_fields.
Proof. repeat apply List.Forall_cons; try apply List.Forall_nil; in_list. Qed.

(** X8: in a record the input schema accepts, a field that is present has
    the shape its schema gives it: the six text fields are strings, the
    thirteen list fields are arrays of strings, the five free-form fields
    are objects, the two classifications are strings of their enumeration,
    [Description] has one of the two name shapes, and [TCMInformation] is
    an object with a [Functions] array of strings whose other keys, if
    any, are [HerbalFormulations] and [Meridians], arrays of strings too. *)
Theorem input_field_shapes formats (m : gmap string json) k x :
  validateInput formats (JObj m) = true ->
  m !! k = Some x ->
  (k ∈ text_fields -> exists s, x = JStr s)
  /\ (k ∈ list_fields -> exists l, x = JArr (JStr <$> l))
  /\ (k ∈ free_object_fields -> exists o, x = JObj o)
  /\ (k = "YinYangClassification" ->
      exists s, x = JStr s
                /\ s ∈ ["Yin (Cold)"; "Yin (Cool)"; "Neutral";
                        "Yang (Warm)"; "Yang (Hot)"])
  /\ (k = "Type" ->
      exists s, x = JStr s /\ s ∈ ["vitamin"; "mineral"; "other"])
  /\ (k = "Description" -> name_shape x)
  /\ (k = "TCMInformation" ->
      exists t fs,
        x = JObj t
        /\ t !! "Functions" = Some (JArr (JStr <$> fs))
        /\ forall k' y,
             t !! k' = Some y ->
             k' ∈ ["Functions"; "HerbalFormulations"; "Meridians"]
             /\ exists l, y = JArr (JStr <$> l)).
Proof.
  unfold validateInput, inputSchema. intros Hv Hk.
  assert (forall sub, (k, sub) ∈ inputSchema_properties ->
                      validate formats sub x = true) as Hsub
    by (intros sub Hin; eapply validate_property; eauto).
  repeat match goal with |- _ /\ _ => split end.
  - intros Hin. apply (validate_string_inv formats), Hsub.
    pose proof text_fields_declared as HF. rewrite Forall_forall in HF.
    apply HF, list_elem_of_In, Hin.
  - intros Hin. apply (validate_array_of_string_inv formats), Hsub.
    pose proof list_fields_declared as HF. rewrite Forall_forall in HF.
    apply HF, list_elem_of_In, Hin.
  - intros Hin. apply (validate_open_object_inv formats), Hsub.
    pose proof free_object_fields_declared as HF. rewrite Forall_forall in HF.
    apply HF, list_elem_of_In, Hin.
  - intros ->. apply (validate_string_enum_inv formats), Hsub. in_list.
  - intros ->. apply (validate_string_enum_inv formats), Hsub. in_list.
  - intros ->. apply (validate_name formats), Hsub. in_list.
  - intros ->.
    assert (validate formats
              (object_ [("Functions", array_of string_);
                        ("HerbalFormulations", array_of string_);
                        ("Meridians", array_of string_)]
                       ["Functions"] false) x = true) as Ht
      by (apply Hsub; in_list).
    destruct (validate_object_inv _ _ _ _ _ Ht) as [t ->].
    destruct (validate_required _ _ _ _ _ "Functions" Ht) as [f Hf];
      [in_list|].
    destruct (validate_array_of_string_inv formats f) as [fs ->].
    { eapply validate_property; [exact Ht| |exact Hf]. in_list. }
    exists t, fs. split; [reflexivity|]. split; [exact Hf|].
    intros k' y Hy.
    pose proof (validate_closed _ _ _ _ _ _ Ht Hy) as Hin. split; [exact Hin|].
    apply (validate_array_of_string_inv formats).
    eapply validate_property; [exact Ht| |exact Hy].
    cbn in Hin.
    repeat (apply elem_of_cons in Hin as [-> | Hin]; [in_list|]).
    inversion Hin.
Qed.

Lemma input_field_shapes_witness :
  exists s, JStr "Yang (Warm)" = JStr s
            /\ s ∈ ["Yin (Cold)"; "Yin (Cool)"; "Neutral";
                    "Yang (Warm)"; "Yang (Hot)"].
Proof.
  apply (input_field_shapes Fixture.formats Fixture.ginger_fields
           "YinYangClassification" (JStr "Yang (Warm)"));
    vm_compute; reflexivity.
Defined.

(* ===================================================================== *)
(** ** The span handed to [JSON.parse] *)
(* ===================================================================== *)

Lemma indexOf_from_bounds s m i :
  0 <= i ->
  JSString.indexOf_from s m i = -1 \/ i <= JSString.indexOf_from s m i.
Proof.
  revert i. induction s as [|c s IH]; intros i Hi; cbn.
  - destruct (JSString.startsWith_units m []); [right|left]; lia.
  - destruct (JSString.startsWith_units m (c :: s)); [right; lia|].
    destruct (IH (i + 1)) as [H|H]; [lia | left; exact H | right; lia].
Qed.

Lemma indexOf_from_absent s m i :
  0 <= i ->
  (JSString.indexOf_from s m i = -1 <-> JSString.includes_units s m = false).
Proof.
  revert i. induction s as [|c s IH]; intros i Hi; cbn.
  - destruct (JSString.startsWith_units m []); cbn; split;
      intros H; try reflexivity; try discriminate; lia.
  - destruct (JSString.startsWith_units m (c :: s)); cbn.
    + split; [lia | discriminate].
    + apply IH. lia.
Qed.

Lemma lastIndexOf_from_bounds s m i :
  0 <= i ->
  JSString.lastIndexOf_from s m i = -1 \/ i <= JSString.lastIndexOf_from s m i.
Proof.
  revert i. induction s as [|c s IH]; intros i Hi; cbn.
  - destruct (JSString.startsWith_units m []); [right|left]; lia.
  - destruct (IH (i + 1)) as [H|H]; [lia| |].
    + rewrite H. cbn.
      destruct (JSString.startsWith_units m (c :: s)); [right|left]; lia.
    + destruct (Z.eqb_spec (JSString.lastIndexOf_from s m (i + 1)) (-1));
        [lia | right; lia].
Qed.

Lemma lastIndexOf_from_absent s m i :
  0 <= i ->
  (JSString.lastIndexOf_from s m i = -1
   <-> JSString.includes_units s m = false).
Proof.
  revert i. induction s as [|c s IH]; intros i Hi; cbn.
  - destruct (JSString.startsWith_units m []); cbn; split;
      intros H; try reflexivity; try discriminate; lia.
  - specialize (IH (i + 1) ltac:(lia)).
    destruct (Z.eqb_spec (JSString.lastIndexOf_from s m (i + 1)) (-1))
      as [E|E].
    + rewrite (proj1 IH E), orb_false_r.
      destruct (JSString.startsWith_units m (c :: s)); split;
        intros H; try reflexivity; try discriminate; lia.
    + split; [contradiction|]. intros H.
      apply orb_false_elim in H as [_ H]. apply IH in H. contradiction.
Qed.

(** X9: the parse block throws for want of a brace exactly when the reply
    has no opening brace or no closing brace. *)
Theorem json_span_none_iff content :
  json_span content = None
  <-> JSString.includes content "{" = false
      \/ JSString.includes content "}" = false.
Proof.
  unfold json_span, JSString.indexOf, JSString.lastIndexOf, JSString.includes.
  rewrite <- (indexOf_from_absent _ _ 0) by lia.
  rewrite <- (lastIndexOf_from_absent _ _ 0) by lia.
  destruct (Z.eqb_spec (JSString.indexOf_from (JSString.units content)
                          (JSString.units "{") 0) (-1));
    destruct (Z.eqb_spec (JSString.lastIndexOf_from (JSString.units content)
                            (JSString.units "}") 0) (-1));
    cbn; split; intros H; try reflexivity; try discriminate; tauto.
Qed.

Lemma json_span_none_iff_witness :
  json_span "no closing { brace" = None /\ json_span "{}" <> None.
Proof.
  split.
  - apply (proj2 (json_span_none_iff "no closing { brace")).
    right. vm_compute. reflexivity.
  - intros H. apply (proj1 (json_span_none_iff "{}")) in H.
    destruct H as [H|H]; vm_compute in H; discriminate.
Defined.

Lemma startsWith_units_single c x l :
  JSString.startsWith_units [c] (x :: l) = bool_decide (c = x).
Proof. cbn. apply andb_true_r. Qed.

Lemma includes_units_single_cons c x l :
  JSString.includes_units (x :: l) [c]
  = bool_decide (c = x) || JSString.includes_units l [c].
Proof.
  cbn [JSString.includes_units]. rewrite startsWith_units_single. reflexivity.
Qed.

Lemma indexOf_from_first c p r i :
  JSString.includes_units p [c] = false ->
  JSString.indexOf_from (p ++ c :: r) [c] i = i + Z.of_nat (length p).
Proof.
  revert i. induction p as [|x p IH]; intros i Hp.
  - cbn [app length JSString.indexOf_from].
    rewrite startsWith_units_single, bool_decide_eq_true_2 by reflexivity. lia.
  - rewrite includes_units_single_cons in Hp.
    apply orb_false_elim in Hp as [Hx Hp].
    cbn [app JSString.indexOf_from].
    rewrite startsWith_units_single, Hx, IH by exact Hp.
    cbn [length]. lia.
Qed.

Lemma lastIndexOf_from_last c a q i :
  0 <= i ->
  JSString.includes_units q [c] = false ->
  JSString.lastIndexOf_from (a ++ c :: q) [c] i = i + Z.of_nat (length a).
Proof.
  intros Hi Hq. revert i Hi. induction a as [|x a IH]; intros i Hi.
  - cbn [app length JSString.lastIndexOf_from].
    rewrite (proj2 (lastIndexOf_from_absent q [c] (i + 1) ltac:(lia)) Hq).
    cbn. rewrite bool_decide_eq_true_2 by reflexivity. cbn. lia.
  - cbn [app JSString.lastIndexOf_from]. rewrite IH by lia.
    destruct (Z.eqb_spec (i + 1 + Z.of_nat (length a)) (-1)); [lia|].
    cbn [length]. lia.
Qed.

Lemma substring_units_middle (p m q : list ascii) :
  JSString.substring_units (p ++ m ++ q)
    (Z.of_nat (length p)) (Z.of_nat (length p) + Z.of_nat (length m))
  = m.
Proof.
  unfold JSString.substring_units. rewrite !length_app.
  rewrite !Nat2Z.inj_add.
  replace (Z.max 0 (Z.min (Z.of_nat (length p))
             (Z.of_nat (length p) + (Z.of_nat (length m) + Z.of_nat (length q)))))
    with (Z.of_nat (length p)) by lia.
  replace (Z.max 0 (Z.min (Z.of_nat (length p) + Z.of_nat (length m))
             (Z.of_nat (length p) + (Z.of_nat (length m) + Z.of_nat (length q)))))
    with (Z.of_nat (length p) + Z.of_nat (length m)) by lia.
  rewrite Z.min_l, Z.max_r by lia.
  replace (Z.of_nat (length p) + Z.of_nat (length m) - Z.of_nat (length p))
    with (Z.of_nat (length m)) by lia.
  rewrite !Nat2Z.id, drop_app_length, take_app_length. reflexivity.
Qed.

(** X10: prose around the braces is dropped: when nothing before the
    first opening brace holds an opening brace and nothing after the last
    closing brace holds a closing brace, the span handed to [JSON.parse] is
    the text from the one brace to the other, braces included. *)
Theorem json_span_strips_prose pre mid post :
  JSString.includes pre "{" = false ->
  JSString.includes post "}" = false ->
  json_span (pre ++ "{" ++ mid ++ "}" ++ post) = Some ("{" ++ mid ++ "}").
Proof.
  unfold JSString.includes. intros Hpre Hpost.
  set (p := JSString.units pre) in *.
  set (m := JSString.units mid).
  set (q := JSString.units post) in *.
  assert (JSString.units (pre ++ "{" ++ mid ++ "}" ++ post)
          = (p ++ "{"%char :: (m ++ "}"%char :: q))%list) as Hunits
    by (rewrite !units_app; reflexivity).
  unfold json_span, JSString.indexOf, JSString.lastIndexOf,
         JSString.substring.
  rewrite Hunits.
  change (JSString.units "{") with ["{"%char] in *.
  change (JSString.units "}") with ["}"%char] in *.
  rewrite indexOf_from_first by exact Hpre.
  replace (p ++ "{"%char :: (m ++ "}"%char :: q))%list
    with ((p ++ "{"%char :: m) ++ "}"%char :: q)%list
    by (rewrite <- app_assoc; reflexivity).
  rewrite lastIndexOf_from_last by (try lia; exact Hpost).
  destruct (Z.eqb_spec (0 + Z.of_nat (length p)) (-1)); [lia|].
  destruct (Z.eqb_spec (0 + Z.of_nat (length (p ++ "{"%char :: m)%list)) (-1));
    [lia|].
  cbn [orb]. f_equal.
  replace ((p ++ "{"%char :: m) ++ "}"%char :: q)%list
    with (p ++ ("{"%char :: m ++ ["}"%char]) ++ q)%list
    by (rewrite <- !app_assoc; cbn; rewrite <- app_assoc; reflexivity).
  replace (0 + Z.of_nat (length (p ++ "{"%char :: m)%list) + 1)
    with (Z.of_nat (length p)
          + Z.of_nat (length ("{"%char :: m ++ ["}"%char])%list))
    by (rewrite !length_app; cbn [length]; rewrite length_app; cbn [length];
        lia).
  rewrite Z.add_0_l, substring_units_middle.
  rewrite <- (JSStringFacts.of_units_units ("{" ++ mid ++ "}")).
  f_equal. rewrite !units_app. reflexivity.
Qed.

Lemma json_span_strips_prose_witness :
  json_span ("Sure, here it is: " ++ "{" ++ "a}{b" ++ "}" ++ " Enjoy!")
  = Some ("{" ++ "a}{b" ++ "}").
Proof.
  apply json_span_strips_prose; vm_compute; reflexivity.
Defined.

(* ===================================================================== *)
(** ** More on the handler *)
(* ===================================================================== *)

(** The place of a call in the pipeline. *)
Definition call_stage (c : Call) : nat :=
  match c with
  | CacheGet _ => 0
  | StoreQuery _ => 1
  | Generate _ => 2
  | JsonParse _ => 3
  | ValidateInput _ => 4
  | CheckConsumable _ => 5
  | ValidateStorage _ => 6
  | StorePut _ => 7
  | CacheSet _ _ => 8
  end%nat.

(** Take a request to its row of the response table. *)
Ltac on_row sha256_hex JSON_parse JSON_stringify formats env event w row Hrow :=
  destruct (handler_on_a_row sha256_hex JSON_parse JSON_stringify formats
              env event w) as (row & Hrow & ->);
  cbn [fst snd row_result statusCode body headers calls cache].

(** The search name of a row is the request's. *)
Ltac same_name s :=
  repeat match goal with
         | H : search_name ?event = Some ?s' |- _ =>
             lazymatch s' with
             | s => fail
             | _ => assert (s' = s) by congruence; subst s'
             end
         end.




Lemma cached_value_stale now key (c : gmap string CacheEntry) entry :
  c !! key = Some entry -> 3600000 <= now - timestamp entry ->
  cached_value now key c = JNull.
Proof.
  intros Hc Hage. unfold cached_value, CACHE_TTL. rewrite Hc.
  destruct (Z.ltb_spec (now - timestamp entry) (60 * 60 * 1000));
    [lia | reflexivity].
Qed.

(** X12: an entry that has reached 3600000 ms of age is not served: the
    request goes on to query the store; the entry is replaced when the
    request ends in 200 and stays in the cache, untouched, when it does
    not. *)
Theorem stale_entry_is_not_served
    sha256_hex JSON_parse JSON_stringify formats env event w s entry :
  search_name event = Some s -> s <> "" ->
  cache w !! sha256_hex (normalizeName s) = Some entry ->
  3600000 <= now_at_get env - timestamp entry ->
  let run := handler sha256_hex JSON_parse JSON_stringify formats env event w in
  (exists rest,
     calls run.2
     = (calls w ++ CacheGet (sha256_hex (normalizeName s))
               :: StoreQuery (normalizeName s) :: rest)%list)
  /\ (statusCode run.1 = 200 ->
      exists item,
        cache run.2 !! sha256_hex (normalizeName s)
        = Some {| data := item; timestamp := now_at_set env |})
  /\ (statusCode run.1 <> 200 ->
      cache run.2 !! sha256_hex (normalizeName s) = Some entry).
Proof.
  intros Hname Hne Hentry Hage run. subst run.
  pose proof (cached_value_stale (now_at_get env) _ _ _ Hentry Hage) as Hnull.
  on_row sha256_hex JSON_parse JSON_stringify formats env event w row Hrow.
  destruct Hrow; open_stages; same_name s; unfold key_of in *;
    try (destruct H; congruence);
    try (rewrite Hnull in *; discriminate);
    cbn [row_status row_calls row_cache app];
    (split; [eexists; reflexivity|]);
    (split; [intros Hs; try discriminate Hs | intros Hs; try exact Hentry;
                                               try (exfalso; apply Hs; reflexivity)]);
    eexists; apply lookup_insert_eq.
Qed.

Lemma stale_entry_is_not_served_witness :
  let w :=
    {| cache := {[ "sha256:ginger" := {| data := Fixture.zinc; timestamp := 0 |} ]};
       calls := [] |} in
  let env :=
    {| now_at_get := 3600000; now_at_set := 3600001;
       dynamo_query := fun _ => Some (Some [Fixture.ginger]);
       openai_content := fun _ => None;
       randomUUID := ""; toISOString_now := "";
       marshall_ok := fun _ => true; dynamo_put_ok := fun _ => true |} in
  let run :=
    handler Fixture.sha256_hex Fixture.JSON_parse Fixture.JSON_stringify
            Fixture.formats env (Fixture.request "Ginger") w in
  exists item,
    cache run.2 !! "sha256:ginger"
    = Some {| data := item; timestamp := 3600001 |}.
Proof.
  intros w env run.
  destruct (stale_entry_is_not_served Fixture.sha256_hex Fixture.JSON_parse
              Fixture.JSON_stringify Fixture.formats env
              (Fixture.request "Ginger") w "Ginger"
              {| data := Fixture.zinc; timestamp := 0 |})
    as (_ & Hhit & _).
  - reflexivity.
  - discriminate.
  - vm_compute. reflexivity.
  - cbn. lia.
  - apply Hhit. vm_compute. reflexivity.
Defined.

(** X13: a record is handed to the store only after it passed the storage
    schema and [marshall], and it is made of fields that passed the input
    schema and the classifier, with the normalized search name as its
    [NameLowercase]. *)
Theorem only_valid_records_are_put
    sha256_hex JSON_parse JSON_stringify formats env event w :
  let run := handler sha256_hex JSON_parse JSON_stringify formats env event w in
  exists new,
    calls run.2 = (calls w ++ new)%list
    /\ forall item,
         StorePut item ∈ new ->
         validateStorage formats item = true
         /\ marshall_ok env item = true
         /\ exists s fields,
              search_name event = Some s
              /\ item = with_system_fields (randomUUID env)
                          (toISOString_now env) (normalizeName s) fields
              /\ validateInput formats (JObj fields) = true
              /\ isConsumableIngredient (JObj fields) = Some true.
Proof.
  intros run. subst run.
  on_row sha256_hex JSON_parse JSON_stringify formats env event w row Hrow.
  exists (row_calls sha256_hex env row). split; [reflexivity|].
  intros item Hin.
  destruct Hrow; cbn [row_calls app] in Hin;
    repeat (apply elem_of_cons in Hin as [Hin|Hin]; [try discriminate Hin|]);
    try (inversion Hin; fail);
    injection Hin as ->; open_stages; unfold stored;
    (split; [assumption|]); (split; [assumption|]); eauto 10.
Qed.

Lemma only_valid_records_are_put_witness :
  validateStorage Fixture.formats
    (with_system_fields "id-1" Fixture.date "ginger" Fixture.ginger_fields)
  = true.
Proof.
  destruct (only_valid_records_are_put Fixture.sha256_hex Fixture.JSON_parse
              Fixture.JSON_stringify Fixture.formats
              (Fixture.env (Some "{ginger}")) (Fixture.request "ginger")
              Fixture.cold) as (new & Hcalls & Hput).
  apply Hput.
  assert (new
          = [ CacheGet "sha256:ginger"; StoreQuery "ginger"; Generate "ginger";
              JsonParse "{ginger}"; ValidateInput Fixture.ginger;
              CheckConsumable Fixture.ginger;
              ValidateStorage
                (with_system_fields "id-1" Fixture.date "ginger"
                                    Fixture.ginger_fields);
              StorePut
                (with_system_fields "id-1" Fixture.date "ginger"
                                    Fixture.ginger_fields);
              CacheSet "sha256:ginger"
                (with_system_fields "id-1" Fixture.date "ginger"
                                    Fixture.ginger_fields) ]) as ->.
  { change (calls Fixture.cold ++ new)%list with new in Hcalls.
    rewrite <- Hcalls. vm_compute. reflexivity. }
  in_list.
Defined.

(** X14: a request touches no cache entry but the one under the
    fingerprint of its normalized search name, and removes none. *)
Theorem request_touches_only_its_cache_key
    sha256_hex JSON_parse JSON_stringify formats env event w :
  let run := handler sha256_hex JSON_parse JSON_stringify formats env event w in
  (forall k,
     (forall s, search_name event = Some s ->
                k <> sha256_hex (normalizeName s)) ->
     cache run.2 !! k = cache w !! k)
  /\ (forall k, is_Some (cache w !! k) -> is_Some (cache run.2 !! k)).
Proof.
  intros run. subst run.
  on_row sha256_hex JSON_parse JSON_stringify formats env event w row Hrow.
  split.
  - intros k Hk.
    destruct Hrow; cbn [row_cache]; try reflexivity;
      open_stages; unfold key_of;
      apply lookup_insert_ne; intros Heq; eapply Hk; eauto.
  - intros k Hsome.
    destruct Hrow; cbn [row_cache]; try exact Hsome;
      rewrite lookup_insert; case_decide; eauto.
Qed.

Lemma request_touches_only_its_cache_key_witness :
  let w :=
    {| cache := {[ "sha256:zinc" := {| data := Fixture.zinc; timestamp := 0 |} ]};
       calls := [] |} in
  cache (handler Fixture.sha256_hex Fixture.JSON_parse Fixture.JSON_stringify
                 Fixture.formats (Fixture.env (Some "{ginger}"))
                 (Fixture.request "ginger") w).2 !! "sha256:zinc"
  = Some {| data := Fixture.zinc; timestamp := 0 |}.
Proof.
  intros w.
  destruct (request_touches_only_its_cache_key Fixture.sha256_hex
              Fixture.JSON_parse Fixture.JSON_stringify Fixture.formats
              (Fixture.env (Some "{ginger}")) (Fixture.request "ginger") w)
    as [Hframe _].
  rewrite Hframe; [reflexivity|].
  intros s Hs. vm_compute in Hs. injection Hs as <-. vm_compute. discriminate.
Defined.


(** X16: the calls of a request follow the pipeline (cache read, store
    query, generator, parse, input validation, classifier, storage
    validation, store put, cache write), each made at most once: nothing
    is retried and nothing is done out of order; a request without a name
    makes no call. *)
Theorem calls_follow_the_pipeline
    sha256_hex JSON_parse JSON_stringify formats env event w :
  let run := handler sha256_hex JSON_parse JSON_stringify formats env event w in
  exists new,
    calls run.2 = (calls w ++ new)%list
    /\ StronglySorted lt (call_stage <$> new)
    /\ (search_name event = None -> new = []).
Proof.
  intros run. subst run.
  on_row sha256_hex JSON_parse JSON_stringify formats env event w row Hrow.
  exists (row_calls sha256_hex env row). split; [reflexivity|].
  split.
  - clear Hrow. destruct row as [| | | | | |? [?|]| | | | | |];
      cbn [row_calls app fmap list_fmap call_stage];
      repeat first [lia | constructor].
  - intros Hnone. destruct Hrow; open_stages; try reflexivity; congruence.
Qed.

Lemma calls_follow_the_pipeline_witness :
  exists new,
    calls (handler Fixture.sha256_hex Fixture.JSON_parse Fixture.JSON_stringify
                   Fixture.formats (Fixture.env None)
                   {| queryStringParameters := None |} Fixture.cold).2
    = ([] ++ new)%list
    /\ new = [].
Proof.
  destruct (calls_follow_the_pipeline Fixture.sha256_hex Fixture.JSON_parse
              Fixture.JSON_stringify Fixture.formats (Fixture.env None)
              {| queryStringParameters := None |} Fixture.cold)
    as (new & Hcalls & _ & Hnone).
  exists new. split; [exact Hcalls | apply Hnone; reflexivity].
Defined.




(** X18: a reply that parses to an object with a key the input schema does
    not declare (a system field such as [ItemID], for one) is refused with
    500 right after the input validation: nothing is classified, put or
    cached. *)
Theorem reply_with_unknown_key_is_refused
    sha256_hex JSON_parse JSON_stringify formats env event w s span
    (m : gmap string json) k x :
  parsed sha256_hex JSON_parse env event w s span (JObj m) ->
  m !! k = Some x ->
  k ∉ known_properties ->
  let run := handler sha256_hex JSON_parse JSON_stringify formats env event w in
  statusCode run.1 = 500
  /\ body run.1
     = JSON_stringify
         (error_body "Invalid data format received from external service.")
  /\ calls run.2
     = (calls w ++ [ CacheGet (sha256_hex (normalizeName s));
                     StoreQuery (normalizeName s); Generate s;
                     JsonParse span; ValidateInput (JObj m) ])%list
  /\ cache run.2 = cache w.
Proof.
  intros Hparsed Hk Hunknown run. subst run.
  rewrite (handler_row sha256_hex JSON_parse JSON_stringify formats env
             event w (InputSchemaViolation s span (JObj m))).
  - repeat split; reflexivity.
  - apply A_input_violation; [exact Hparsed|].
    exact (input_rejects_unknown formats m k x Hk Hunknown).
Qed.

Lemma reply_with_unknown_key_is_refused_witness :
  let with_id := <["ItemID" := JStr "made-up"]> Fixture.ginger_fields in
  statusCode
    (handler Fixture.sha256_hex (fun _ => Some (JObj with_id))
             Fixture.JSON_stringify Fixture.formats
             (Fixture.env (Some "{...}")) (Fixture.request "ginger")
             Fixture.cold).1 = 500.
Proof.
  intros with_id.
  apply (reply_with_unknown_key_is_refused Fixture.sha256_hex
           (fun _ => Some (JObj with_id)) Fixture.JSON_stringify
           Fixture.formats (Fixture.env (Some "{...}"))
           (Fixture.request "ginger") Fixture.cold "ginger" "{...}"
           with_id "ItemID" (JStr "made-up")).
  - exists "{...}". open_fixture. exists "{...}". open_fixture.
  - apply lookup_insert_eq.
  - by_evaluation.
Defined.
